(** * dft (Docker For Testing): container lifecycle and readiness engine

    A shallow embedding of the Go package [dft]: the launcher
    ([startContainer], [newContainer]), the liveness poller
    ([containerIsAlive]), port discovery ([getPublishedPorts]), the
    conditional wait engine ([WaitCmd]), teardown ([Stop]) and the option
    closures ([WithEnvVar], ...).

    Conventions of the embedding:
    - a Go [string] is a sequence of bytes: Rocq's [string] (characters are
      bytes, so "the first 12 characters" are the first 12 bytes);
    - [uint] is the 64-bit unsigned integer, carried as [N];
    - the [docker] binary is the outside world: every [cmd.Run()] is
      answered by an oracle [exec] that sees all the commands run so far;
      the list of commands run is the observable trace;
    - a ticker loop is a recursion on the number of ticks still modelled;
      running out of them is the outcome [Pending] (still polling);
    - a Go run-time panic (index or slice out of range) is the outcome
      [Panic]. *)

From Stdlib Require Import ZArith NArith Ascii String List Lia DecimalString DecimalN.
From stdpp Require Import base option list gmap strings.

Local Open Scope N_scope.

(** ** Bytes and string literals with control characters *)

Definition LF : ascii := "010"%char.
Definition CR : ascii := "013"%char.
Definition nl : string := String LF EmptyString.

Definition str (c : ascii) : string := String c EmptyString.

(** ** Package [strings] *)

Module gostrings.

(** [strings.HasPrefix(s, prefix)] *)
Fixpoint HasPrefix (s prefix : string) {struct prefix} : bool :=
  match prefix with
  | EmptyString => true
  | String p prefix' =>
      match s with
      | EmptyString => false
      | String c s' => if Ascii.eqb c p then HasPrefix s' prefix' else false
      end
  end.

(** [strings.Split(s, sep)] for a non-empty separator (the two call sites
    pass the literals " -> " and ":"): the pieces between the
    non-overlapping occurrences of [sep], found left to right. [skip]
    counts the bytes of a matched separator still to be passed over. *)
Fixpoint splitFrom (sep : string) (skip : nat) (s : string) : list string :=
  match s with
  | EmptyString => [EmptyString]
  | String c rest =>
      match skip with
      | S k => splitFrom sep k rest
      | O =>
          if HasPrefix s sep
          then EmptyString :: splitFrom sep (String.length sep - 1) rest
          else match splitFrom sep O rest with
               | piece :: pieces => String c piece :: pieces
               | [] => [str c]
               end
      end
  end.

Definition Split (s sep : string) : list string := splitFrom sep O s.

(** [strings.ReplaceAll(s, old, new)] for a non-empty [old]. *)
Fixpoint replaceFrom (old new : string) (skip : nat) (s : string) : string :=
  match s with
  | EmptyString => EmptyString
  | String c rest =>
      match skip with
      | S k => replaceFrom old new k rest
      | O =>
          if HasPrefix s old
          then new +:+ replaceFrom old new (String.length old - 1) rest
          else String c (replaceFrom old new O rest)
      end
  end.

Definition ReplaceAll (s old new : string) : string := replaceFrom old new O s.

(** [strings.Join(elems, sep)] *)
Fixpoint Join (elems : list string) (sep : string) : string :=
  match elems with
  | [] => EmptyString
  | [e] => e
  | e :: rest => e +:+ sep +:+ Join rest sep
  end.

(** [strings.Contains(s, substr)] *)
Fixpoint Contains (s substr : string) : bool :=
  HasPrefix s substr ||
  match s with
  | EmptyString => false
  | String _ s' => Contains s' substr
  end.

(** [strings.IndexByte(s, c) >= 0] *)
Fixpoint hasByte (c : ascii) (s : string) : bool :=
  match s with
  | EmptyString => false
  | String x s' => Ascii.eqb x c || hasByte c s'
  end.

Definition isASCII (s : string) : bool :=
  forallb (fun c => (N_of_ascii c <? 128)%N) (list_ascii_of_string s).

Definition upperByte (c : ascii) : ascii :=
  let n := N_of_ascii c in
  if (97 <=? n) && (n <=? 122) then ascii_of_N (n - 32) else c.

Fixpoint mapBytes (f : ascii -> ascii) (s : string) : string :=
  match s with
  | EmptyString => EmptyString
  | String c s' => String (f c) (mapBytes f s')
  end.

(** [strings.ToUpper(s)]: the ASCII fast path of the library is written
    out; a string with a byte above 0x7f goes through the Unicode case
    tables, [unicodeUpper], which the embedding takes as given. *)
Definition ToUpper (unicodeUpper : string -> string) (s : string) : string :=
  if isASCII s then mapBytes upperByte s else unicodeUpper s.

End gostrings.

(** ** Package [strconv] *)

Module strconv.

Definition base10 : N := 10.
Definition bit64 : N := 64.

(** [strconv.FormatUint(n, 10)] *)
Definition FormatUint (n : N) : string := NilZero.string_of_uint (N.to_uint n).

Definition digitOf (c : ascii) : option N :=
  let n := N_of_ascii c in
  if (48 <=? n) && (n <=? 57) then Some (n - 48) else None.

Definition maxUint64 : N := 2 ^ 64 - 1.
Definition cutoff : N := maxUint64 / 10 + 1.

(** The digit loop of [strconv.ParseUint(s, 10, 64)]: [None] is a
    [*NumError] (syntax error on a byte that is not a decimal digit,
    range error once the value leaves 64 bits). *)
Fixpoint parseLoop (n : N) (s : string) : option N :=
  match s with
  | EmptyString => Some n
  | String c s' =>
      match digitOf c with
      | None => None
      | Some d =>
          if cutoff <=? n then None
          else
            let n1 := n * 10 + d in
            if maxUint64 <? n1 then None else parseLoop n1 s'
      end
  end.

Definition ParseUint (s : string) : option N :=
  match s with
  | EmptyString => None
  | _ => parseLoop 0 s
  end.

End strconv.

(** ** Errors *)

(** The error values the package builds: [fmt.Errorf] without [%w] (or any
    library error) is a leaf with its rendered text, [fmt.Errorf] with one
    [%w] keeps the rendered text and the wrapped error, [errors.Join] keeps
    both errors. *)
Inductive error : Type :=
| errorString (msg : string)
| wrapError (msg : string) (err : error)
| joinError (e1 e2 : error).

(** [err.Error()] *)
Fixpoint Error (e : error) : string :=
  match e with
  | errorString msg => msg
  | wrapError msg _ => msg
  | joinError e1 e2 => Error e1 +:+ nl +:+ Error e2
  end.

(** [errors.Unwrap(err)] *)
Definition Unwrap (e : error) : option error :=
  match e with
  | wrapError _ err => Some err
  | _ => None
  end.

(** ** Package [bufio]: a [Scanner] with the default [ScanLines] split *)

Module bufio.

Definition MaxScanTokenSize : N := 64 * 1024.
Definition ErrTooLong : error := errorString "bufio.Scanner: token too long".

(** The input cut at every LF; an unterminated last line counts when it is
    not empty. *)
Fixpoint rawLines (s : string) : list string :=
  match s with
  | EmptyString => []
  | String c rest =>
      if Ascii.eqb c LF then EmptyString :: rawLines rest
      else match rawLines rest with
           | l :: ls => String c l :: ls
           | [] => [str c]
           end
  end.

(** [dropCR]: one trailing carriage return is removed. *)
Fixpoint dropCR (s : string) : string :=
  match s with
  | EmptyString => EmptyString
  | String c EmptyString => if Ascii.eqb c CR then EmptyString else s
  | String c rest => String c (dropCR rest)
  end.

(** The tokens that successive [Scan()] calls deliver and the value of
    [Err()] once [Scan()] has returned false: a line that does not fit in
    the 64 KiB buffer stops the scanner with [ErrTooLong]. *)
Fixpoint scanTokens (ls : list string) : list string * option error :=
  match ls with
  | [] => ([], None)
  | l :: rest =>
      if MaxScanTokenSize <=? N.of_nat (String.length l)
      then ([], Some ErrTooLong)
      else let '(ts, e) := scanTokens rest in (dropCR l :: ts, e)
  end.

Definition Scan (input : string) : list string * option error :=
  scanTokens (rawLines input).

End bufio.

(** ** The outside world: contexts, commands and their results *)

(** [time.Duration], in nanoseconds. *)
Definition Millisecond : N := 1000000.
Definition Second : N := 1000 * Millisecond.

(** A [context.Context]: one handed in by the caller, [context.Background()]
    or [context.WithTimeout(parent, d)]. *)
Inductive context : Type :=
| callerCtx (tag : N)
| Background
| WithTimeout (parent : context) (d : N).

(** One [exec.CommandContext(ctx, name, args...)] that was run. *)
Record command : Type := Command {
  cmdCtx : context;
  cmdName : string;
  cmdArgs : list string
}.

(** What a finished [exec.Cmd] shows: the captured streams ([combined] is
    what [CombinedOutput] collects), [ProcessState.ExitCode()] ([-1] when
    the process did not start) and the error of [Run()]. *)
Record completed : Type := Completed {
  stdOut : string;
  stdErr : string;
  combined : string;
  exitCode : Z;
  runErr : option error
}.

(** Results of a computation that talks to the runtime. *)
Inductive outcome (A : Type) : Type :=
| Ret (a : A)
| Panic
| Pending.
Arguments Ret {A} a.
Arguments Panic {A}.
Arguments Pending {A}.

(** A computation threads the trace of commands run so far. *)
Definition M (A : Type) : Type := list command -> outcome A * list command.

Definition ret {A} (a : A) : M A := fun h => (Ret a, h).
Definition panic {A} : M A := fun h => (Panic, h).
Definition pending {A} : M A := fun h => (Pending, h).
Definition bind {A B} (m : M A) (k : A -> M B) : M B :=
  fun h =>
    match m h with
    | (Ret a, h') => k a h'
    | (Panic, h') => (Panic, h')
    | (Pending, h') => (Pending, h')
    end.

Notation "'let*' x ':=' m 'in' k" := (bind m (fun x => k))
  (at level 10, x pattern, m at level 100, k at level 200).

(** ** Constants of docker.go and of the container file *)

Definition dockerCmd : string := "docker".

Definition actionContainer : string := "container".
Definition actionExec : string := "exec".
Definition actionInspect : string := "inspect".
Definition actionPort : string := "port".
Definition actionRun : string := "run".
Definition actionVolume : string := "volume".

Definition idLength : nat := 12.
Definition intervalAlive : N := 200.
Definition intervalWait : N := 150.

Definition stateCreated : string := "'created'" +:+ nl.
Definition stateDead : string := "'dead'" +:+ nl.
Definition stateExited : string := "'exited'" +:+ nl.
Definition statePaused : string := "'paused'" +:+ nl.
Definition stateRestarting : string := "'restarting'" +:+ nl.
Definition stateRunning : string := "'running'" +:+ nl.

(** ** Options *)

(** A [*[]T] field: [None] is the nil pointer. The declaration of the
    [mounts] field is not among the sources; [newContainer] reads it. *)
Record containerCfg : Type := ContainerCfg {
  args : option (list string);
  env : option (list string);
  mounts : option (list (string * string));
  ports : option (list (N * N))
}.

Record waitCfg : Type := WaitCfg {
  inContainer : option bool
}.

(** An option closure mutates the configuration it is given. *)
Definition ContainerOption : Type := containerCfg -> containerCfg.
Definition WaitOption : Type := waitCfg -> waitCfg.

(** [*p] for a pointer that the closure has just made non-nil. *)
Definition deref {A} (p : option (list A)) : list A := default [] p.

Definition WithCmd (arguments : list string) : ContainerOption :=
  fun cfg =>
    let n := deref (args cfg) ++ arguments in
    {| args := Some n; env := env cfg; mounts := mounts cfg; ports := ports cfg |}.

Definition WithPort (port target : N) : ContainerOption :=
  fun cfg =>
    let n := deref (ports cfg) ++ [(port, target)] in
    {| args := args cfg; env := env cfg; mounts := mounts cfg; ports := Some n |}.

Definition WithRandomPort (port : N) : ContainerOption := WithPort port 0.

Definition WithExecuteInsideContainer (b : bool) : WaitOption :=
  fun _ => {| inContainer := Some b |}.

(** [for i := range opts { opts[i](&cfg) }] *)
Definition applyOptions {C} (opts : list (C -> C)) (cfg : C) : C :=
  fold_left (fun c o => o c) opts cfg.

(** ** The container handle *)

(** [portMappings]: [None] is the nil map. *)
Record Container : Type := MkContainer {
  id : string;
  portMappings : option (gmap N (list string))
}.

(** [m[k]] with the comma-ok form, on a map that may be nil. *)
Definition mapIndex (m : option (gmap N (list string))) (k : N) : option (list string) :=
  match m with
  | None => None
  | Some m => m !! k
  end.

(** [len(m)] *)
Definition mapLen (m : option (gmap N (list string))) : nat :=
  match m with
  | None => O
  | Some m => size m
  end.

(** The loop of [ExposedPorts]: [p] is the slice built so far. *)
Fixpoint exposedLoop (strs : list string) (p : list N) : outcome (option (list N) * bool) :=
  match strs with
  | [] => Ret (Some p, true)
  | s :: rest =>
      let parts := gostrings.Split s ":" in
      match parts !! 1%nat with
      | None => Panic
      | Some part =>
          match strconv.ParseUint part with
          | None => Ret (None, false)
          | Some v => exposedLoop rest (p ++ [v])
          end
      end
  end.

Definition ExposedPorts (c : Container) (port : N) : outcome (option (list N) * bool) :=
  match mapIndex (portMappings c) port with
  | None => Ret (None, false)
  | Some strs => exposedLoop strs []
  end.

Definition ExposedPortAddresses (c : Container) (port : N) : option (list string) * bool :=
  match mapIndex (portMappings c) port with
  | None => (None, false)
  | Some strs => (Some strs, true)
  end.

Definition TAB : ascii := "009"%char.
Definition dq : string := str "034"%char.

(** The Go template that lists the names of the volume-type mounts. *)
Definition volumesTemplate : string :=
  "{{ range .Mounts }}{{if eq .Type " +:+ dq +:+ "volume" +:+ dq +:+
  "}}{{ .Name }}{{" +:+ dq +:+ "\n" +:+ dq +:+ "}}{{ end }}{{ end }}".

(** ** Scripted runtimes, to run the embedding on concrete scenarios *)

(** A command that exits zero having printed [out]. *)
Definition succeeds (out : string) : completed :=
  {| stdOut := out; stdErr := EmptyString; combined := out; exitCode := 0; runErr := None |}.

(** A command that ran and exited with [code], having printed [msg] on its
    standard error. *)
Definition exits (code : Z) (msg : string) : completed :=
  {| stdOut := EmptyString; stdErr := msg; combined := msg; exitCode := code;
     runErr := Some (errorString "exit status 1") |}.

(** A command that could not be started. *)
Definition notStarted : completed :=
  {| stdOut := EmptyString; stdErr := EmptyString; combined := EmptyString;
     exitCode := (-1)%Z;
     runErr := Some (errorString "exec: executable file not found in $PATH") |}.

(** The runtime that answers the n-th command run with the n-th entry of a
    script, and with a silent success afterwards. *)
Definition scripted (script : list completed) : list command -> command -> completed :=
  fun h _ => nth (length h) script (succeeds EmptyString).

Definition neverDone : context -> list command -> bool := fun _ _ => false.
Definition alwaysDone : context -> list command -> bool := fun _ _ => true.
Definition deadlineExceeded : context -> error :=
  fun _ => errorString "context deadline exceeded".
Definition plainQuote : string -> string := fun s => dq +:+ s +:+ dq.
Definition asciiOnly : string -> string := fun s => s.

(** The identifier docker prints for a new container. *)
Definition sampleId : string :=
  "0123456789abcdef0123456789abcdef0123456789abcdef0123456789abcdef" +:+ nl.

(** ** Shapes of text used in the statements *)

(** A line of [docker port]: [<port>/tcp -> <address>]. *)
Definition publishedLine (port address : string) : string :=
  port +:+ "/tcp -> " +:+ address.

(** The output made of such lines, each ended by a line feed. *)
Fixpoint portOutput (entries : list (string * string)) : string :=
  match entries with
  | [] => EmptyString
  | (port, address) :: rest => publishedLine port address +:+ nl +:+ portOutput rest
  end.

(** The addresses published for [p], in the order of the lines. *)
Fixpoint addressesOf (p : N) (entries : list (string * string)) : list string :=
  match entries with
  | [] => []
  | (port, address) :: rest =>
      if decide (strconv.ParseUint port = Some p)
      then address :: addressesOf p rest
      else addressesOf p rest
  end.

(** An address that holds neither the separator of a published line nor a
    line end. *)
Definition plainAddress (address : string) : Prop :=
  gostrings.Contains address " -> " = false /\
  gostrings.hasByte LF address = false /\
  gostrings.hasByte CR address = false.

(** A host address [<host>:<port>]. *)
Definition hostAddress (host port : string) : string := host +:+ ":" +:+ port.

(** The left-hand side of a line of [docker port], as [getPublishedPorts]
    reads it. *)
Definition lhsOf (line : string) : string :=
  gostrings.ReplaceAll (hd EmptyString (gostrings.Split line " -> ")) "/tcp" "".

(** A lower-case ASCII letter. *)
Definition isLower (c : ascii) : bool :=
  (97 <=? N_of_ascii c) && (N_of_ascii c <=? 122).

(** An entry [(port, address)] that renders as a well-formed published
    line: a decimal port that fits [uint], a plain address, and a line
    within the scanner's buffer. *)
Definition publishedEntry (e : string * string) : Prop :=
  is_Some (strconv.ParseUint (fst e)) /\
  plainAddress (snd e) /\
  N.of_nat (String.length (publishedLine (fst e) (snd e))) < bufio.MaxScanTokenSize.

(** ** Concrete scenarios *)

Definition ctx0 : context := callerCtx 0.
Definition cid0 : string := "0123456789ab".
Definition fiveSeconds : context := WithTimeout Background (5 * Second).
Definition noOptions : containerCfg :=
  {| args := None; env := None; mounts := None; ports := None |}.

(** [docker run] succeeds, then the container is found exited; the logs and
    the three commands of the clean-up succeed. *)
Definition exitedRuntime : list command -> command -> completed :=
  scripted [succeeds sampleId; succeeds stateExited; succeeds "no such file";
            succeeds EmptyString; succeeds EmptyString; succeeds EmptyString].

(** [docker run] succeeds and the container runs, but the caller's context
    is done when the port discovery starts; the logs and the four commands
    of the clean-up succeed, the container having one volume. *)
Definition cancelledRuntime : list command -> command -> completed :=
  scripted [succeeds sampleId; succeeds stateRunning; succeeds "ready";
            succeeds EmptyString; succeeds ("pgdata" +:+ nl);
            succeeds EmptyString; succeeds EmptyString].

(** [docker run] exits zero having printed three bytes and a line feed. *)
Definition shortIdRuntime : list command -> command -> completed :=
  scripted [succeeds ("abc" +:+ nl)].

(** The container is created on the first inspection and running on the
    second. *)
Definition bootingRuntime : list command -> command -> completed :=
  scripted [succeeds stateCreated; succeeds stateRunning].

(** The probe cannot be started. *)
Definition noProbeRuntime : list command -> command -> completed :=
  scripted [notStarted].

(** A dual binding of port 27017 and a binding of port 80, IPv4 only. *)
Definition publishedEntries : list (string * string) :=
  [("27017", "0.0.0.0:32768"); ("80", "0.0.0.0:8080"); ("27017", "0.0.0.0:27017")].

Definition publishingRuntime : list command -> command -> completed :=
  scripted [succeeds (portOutput publishedEntries)].

(** A TCP and a UDP port are published. *)
Definition udpRuntime : list command -> command -> completed :=
  scripted [succeeds ("27017/tcp -> 0.0.0.0:32768" +:+ nl +:+
                      "53/udp -> 0.0.0.0:32769" +:+ nl)].

(** The container is already gone when [Stop] is called. *)
Definition goneRuntime : list command -> command -> completed :=
  scripted [exits 1 "Error response from daemon: No such container: 0123456789ab"].

(** A handle with two IPv4 bindings of port 27017. *)
Definition ipv4Handle : Container :=
  {| id := cid0;
     portMappings :=
       Some {[ 27017 := [hostAddress "0.0.0.0" "32768"; hostAddress "0.0.0.0" "27017"] ]} |}.

(** A handle on a dual-stack host: docker prints an IPv4 and an IPv6
    binding for the one host port. *)
Definition dualStackHandle : Container :=
  {| id := cid0;
     portMappings :=
       Some {[ 27017 := [hostAddress "0.0.0.0" "32768"; hostAddress "[::]" "32768"] ]} |}.

Definition exitZero : string -> string -> Z -> bool := fun _ _ code => (code =? 0)%Z.

(** The launch scenario of the specification: the container runs at the
    first inspection, [docker port] prints nothing twice and then one
    published line. *)
Definition slowPortsRuntime : list command -> command -> completed :=
  scripted [succeeds sampleId; succeeds stateRunning;
            succeeds EmptyString; succeeds EmptyString;
            succeeds ("80/tcp -> 0.0.0.0:49155" +:+ nl)].

(** A launch on a dual-stack host: docker prints an IPv4 and an IPv6 binding
    for the random host port. *)
Definition dualStackRuntime : list command -> command -> completed :=
  scripted [succeeds sampleId; succeeds stateRunning;
            succeeds ("27017/tcp -> 0.0.0.0:32768" +:+ nl +:+
                      "27017/tcp -> [::]:32768" +:+ nl)].

(** ** Shapes used in the further statements *)

(** The second pieces of the lines whose left-hand side reads as port [p],
    in the order of the lines. *)
Fixpoint piecesFor (p : N) (tokens : list string) : list string :=
  match tokens with
  | [] => []
  | t :: rest =>
      if decide (strconv.ParseUint (lhsOf t) = Some p)
      then match gostrings.Split t " -> " !! 1%nat with
           | Some rhs => rhs :: piecesFor p rest
           | None => piecesFor p rest
           end
      else piecesFor p rest
  end.

(** No port of the mapping has an empty list of addresses. *)
Definition noEmptyList (pm : gmap N (list string)) : Prop :=
  forall p l, pm !! p = Some l -> l <> [].

(** The command one tick of [WaitCmd] runs: [docker exec <id> cmd...] inside
    the container, the command itself on the host. *)
Definition probeCommand (ctx : context) (c : Container) (cmd : list string)
    (inCtr : bool) : command :=
  if inCtr then Command ctx dockerCmd ([actionExec; id c] ++ cmd)
  else Command ctx (hd EmptyString cmd) (tl cmd).

(** The predicate of [WaitCmd] on what a finished probe shows. *)
Definition metOn (met : string -> string -> Z -> bool) (r : completed) : bool :=
  met (stdOut r) (stdErr r) (exitCode r).

(** What the inspection template prints for the volume-type mounts: one
    name per line. *)
Fixpoint volumesOutput (names : list string) : string :=
  match names with
  | [] => EmptyString
  | n :: rest => n +:+ nl +:+ volumesOutput rest
  end.

(** A volume name: not empty, on one line, within the scanner's buffer. *)
Definition volumeName (n : string) : Prop :=
  n <> EmptyString /\
  gostrings.hasByte LF n = false /\
  gostrings.hasByte CR n = false /\
  N.of_nat (String.length n) < bufio.MaxScanTokenSize.

(** The host port [ExposedPorts] reads from an address: the second
    [":"]-piece, as an unsigned integer. *)
Definition hostPortOf (address : string) : option N :=
  match gostrings.Split address ":" !! 1%nat with
  | Some part => strconv.ParseUint part
  | None => None
  end.

(** A call of one of the container options of the options file. *)
Inductive optionCall : Type :=
| callWithCmd (arguments : list string)
| callWithEnvVar (key value : string)
| callWithPort (port target : N)
| callWithRandomPort (port : N).

(** What a call contributes to the command override and to the port pairs. *)
Definition cmdOf (o : optionCall) : list string :=
  match o with
  | callWithCmd arguments => arguments
  | _ => []
  end.

Definition portsOf (o : optionCall) : list (N * N) :=
  match o with
  | callWithPort port target => [(port, target)]
  | callWithRandomPort port => [(port, 0)]
  | _ => []
  end.

(** A computation that only adds to the trace. *)
Definition appends {A} (m : M A) : Prop :=
  forall h, exists more, snd (m h) = h ++ more.

(** A probe that could not be started: an error together with exit code
    -1. *)
Definition unrunnable (r : completed) : bool :=
  match runErr r with
  | Some _ => (exitCode r =? -1)%Z
  | None => false
  end.

(** The number a decimal numeral denotes, read digit by digit after [acc]. *)
Fixpoint uintValue (acc : N) (d : Decimal.uint) : N :=
  match d with
  | Decimal.Nil => acc
  | Decimal.D0 l => uintValue (acc * 10 + 0) l
  | Decimal.D1 l => uintValue (acc * 10 + 1) l
  | Decimal.D2 l => uintValue (acc * 10 + 2) l
  | Decimal.D3 l => uintValue (acc * 10 + 3) l
  | Decimal.D4 l => uintValue (acc * 10 + 4) l
  | Decimal.D5 l => uintValue (acc * 10 + 5) l
  | Decimal.D6 l => uintValue (acc * 10 + 6) l
  | Decimal.D7 l => uintValue (acc * 10 + 7) l
  | Decimal.D8 l => uintValue (acc * 10 + 8) l
  | Decimal.D9 l => uintValue (acc * 10 + 9) l
  end.

(** A binding as docker publishes it: internal port, host, host port. *)
Definition binding : Type := N * (string * N).

(** The line of [docker port] for a binding. *)
Definition bindingEntry (b : binding) : string * string :=
  (strconv.FormatUint (fst b),
   hostAddress (fst (snd b)) (strconv.FormatUint (snd (snd b)))).

(** The host ports of the bindings of internal port [p], in order. *)
Fixpoint hostPortsFor (p : N) (bs : list binding) : list N :=
  match bs with
  | [] => []
  | b :: rest =>
      if decide (fst b = p) then snd (snd b) :: hostPortsFor p rest
      else hostPortsFor p rest
  end.

(** A binding whose numbers fit [uint] and whose host holds no colon. *)
Definition plainBinding (b : binding) : Prop :=
  fst b <= strconv.maxUint64 /\
  snd (snd b) <= strconv.maxUint64 /\
  gostrings.hasByte ":" (fst (snd b)) = false /\
  publishedEntry (bindingEntry b).

(** Two bytes that are equal, or the two cases of one ASCII letter. *)
Definition sameLetter (a b : ascii) : bool :=
  let m := N_of_ascii a in
  let n := N_of_ascii b in
  (m =? n) ||
  ((65 <=? m) && (m <=? 90) && (n =? m + 32)) ||
  ((65 <=? n) && (n <=? 90) && (m =? n + 32)).

(** Two strings that differ at most in the case of their ASCII letters. *)
Fixpoint equalFold (s t : string) : bool :=
  match s, t with
  | EmptyString, EmptyString => true
  | String a s', String b t' => sameLetter a b && equalFold s' t'
  | _, _ => false
  end.

(** ** Further scenarios *)

(** [docker port] prints one published line. *)
Definition oneLineRuntime : list command -> command -> completed :=
  scripted [succeeds ("80/tcp -> 0.0.0.0:49155" +:+ nl)].

(** [docker port] prints nothing twice, then one published line. *)
Definition quietThenLineRuntime : list command -> command -> completed :=
  scripted [succeeds EmptyString; succeeds EmptyString;
            succeeds ("80/tcp -> 0.0.0.0:49155" +:+ nl)].

(** [docker run] is refused. *)
Definition pullDeniedRuntime : list command -> command -> completed :=
  scripted [exits 125 "docker: Error response from daemon: pull access denied"].

(** A probe that exits 1 twice and 0 the third time. *)
Definition slowProbeRuntime : list command -> command -> completed :=
  scripted [exits 1 "not yet"; exits 1 "not yet"; succeeds "ok"].

Definition neverMet : string -> string -> Z -> bool := fun _ _ _ => false.

(** The inspection lists two volumes. *)
Definition volumeListRuntime : list command -> command -> completed :=
  scripted [succeeds (volumesOutput ["pgdata"; "cache"])].

(** A teardown in which every command succeeds and two volumes are
    listed. *)
Definition volumesRuntime : list command -> command -> completed :=
  scripted [succeeds EmptyString; succeeds (volumesOutput ["pgdata"; "cache"]);
            succeeds EmptyString; succeeds EmptyString].

(** Two bindings of port 27017 around one of port 80. *)
Definition sampleBindings : list binding :=
  [(27017, ("0.0.0.0", 32768)); (80, ("0.0.0.0", 8080)); (27017, ("0.0.0.0", 27017))].

(** The handle of the launch scenario. *)
Definition port80Handle : Container :=
  {| id := cid0; portMappings := Some {[ 80 := ["0.0.0.0:49155"] ]} |}.

Section Engine.

Set Default Proof Using "Type".

(** The runtime: what running a command gives, knowing the commands run
    before it. *)
Variable exec : list command -> command -> completed.

(** The scheduler and the caller: whether a [select] takes the
    [<-ctx.Done()] case at this point of the trace, and [ctx.Err()]. *)
Variable doneFires : context -> list command -> bool.
Variable ctxErr : context -> error.

(** Library functions taken as given: [strconv.Quote] (the [%q] verb), the
    Unicode path of [strings.ToUpper] and [exec.LookPath]. *)
Variable Quote : string -> string.
Variable unicodeUpper : string -> string.
Variable LookPath : string -> option error.

(** [cmd.Run()] *)
Definition run (c : command) : M completed :=
  fun h => (Ret (exec h c), h ++ [c]).

(** *** Options that need the library *)

Definition WithEnvVar (key value : string) : ContainerOption :=
  fun cfg =>
    let n := deref (env cfg) ++ [gostrings.ToUpper unicodeUpper key +:+ "=" +:+ value] in
    {| args := args cfg; env := Some n; mounts := mounts cfg; ports := ports cfg |}.

(** *** docker.go *)

(** The [-p] operand of one [[2]uint{port, target}] pair. *)
Definition portSeq (p : N * N) : string :=
  if snd p =? 0
  then strconv.FormatUint (fst p)
  else strconv.FormatUint (fst p) +:+ ":" +:+ strconv.FormatUint (snd p).

Definition mountSeq (m : string * string) : string :=
  "type=bind,source=" +:+ fst m +:+ ",target=" +:+ snd m.

(** The argument list of [docker run], built by the four appends. *)
Definition startArgs (imageName : string) (arguments envVars : list string)
    (exposedPorts : list (N * N)) (mnts : list (string * string)) : list string :=
  let a := [actionRun; "-d"] in
  let a := fold_left (fun a p => a ++ ["-p"; portSeq p]) exposedPorts a in
  let a := fold_left (fun a e => a ++ ["-e"; e]) envVars a in
  let a := fold_left (fun a m => a ++ ["--mount"; mountSeq m]) mnts a in
  let a := a ++ [imageName] in
  a ++ arguments.

Definition startContainer (ctx : context) (imageName : string)
    (arguments envVars : list string) (exposedPorts : list (N * N))
    (mnts : list (string * string)) : M (string * option error) :=
  let a := startArgs imageName arguments envVars exposedPorts mnts in
  let* r := run (Command ctx dockerCmd a) in
  match runErr r with
  | Some _ =>
      ret (EmptyString,
           Some (errorString ("unable to start container:" +:+ nl +:+ stdOut r +:+ nl +:+
                              stdErr r +:+ nl +:+ "args: " +:+ Quote (gostrings.Join a " "))))
  | None =>
      (* stdOutCapture.String()[:idLength] *)
      if (idLength <=? String.length (stdOut r))%nat
      then ret (substring 0 idLength (stdOut r), None)
      else panic
  end.

(** The three states of the liveness poller after one inspection. *)
Inductive liveness : Type :=
| starting
| running
| failed (e : error).

Definition inspectCommand (ctx : context) (cid : string) : command :=
  Command ctx dockerCmd [actionInspect; "-f"; "'{{.State.Status}}'"; cid].

(** The body of the poller's loop after [cmd.Run()]. *)
Definition statusOf (r : completed) : liveness :=
  match runErr r with
  | Some cErr =>
      failed (joinError cErr
                (errorString ("unable to inspect container: " +:+ stdErr r)))
  | None =>
      let state := stdOut r in
      if (String.eqb state stateDead || String.eqb state stateExited ||
          String.eqb state statePaused || String.eqb state stateRestarting)%bool
      then failed (errorString ("container in invalid state: " +:+ state +:+ nl +:+
                                "stdOut:" +:+ stdOut r +:+ nl +:+
                                "stdErr:" +:+ stdErr r))
      else if String.eqb state stateRunning then running
      else starting
  end.

Fixpoint containerIsAlive (ticks : nat) (ctx : context) (cid : string) : M (option error) :=
  match ticks with
  | O => pending
  | S ticks' =>
      let* r := run (inspectCommand ctx cid) in
      match statusOf r with
      | failed e => ret (Some e)
      | running => ret None
      | starting => containerIsAlive ticks' ctx cid
      end
  end.

(** How the scanning loop of [getPublishedPorts] ends. *)
Inductive scanned : Type :=
| scanDone (pm : gmap N (list string))
| scanReturn (m : option (gmap N (list string))) (err : option error)
| scanPanic.

(** The loop over the scanned lines; [err] is the variable that still holds
    the (nil) result of [cmd.Run()]. *)
Fixpoint portLines (err : option error) (tokens : list string)
    (pm : gmap N (list string)) : scanned :=
  match tokens with
  | [] => scanDone pm
  | t :: rest =>
      let parts := gostrings.Split t " -> " in
      match parts !! 0%nat with
      | None => scanPanic
      | Some lhs =>
          match strconv.ParseUint (gostrings.ReplaceAll lhs "/tcp" "") with
          | None => scanReturn None err
          | Some port =>
              match parts !! 1%nat with
              | None => scanPanic
              | Some rhs => portLines err rest (<[port := (pm !!! port) ++ [rhs]]> pm)
              end
          end
      end
  end.

Definition portCommand (ctx : context) (cid : string) : command :=
  Command ctx dockerCmd [actionPort; cid].

(** What [getPublishedPorts] does with the finished command. *)
Definition publishedPortsOf (r : completed)
    : outcome (option (gmap N (list string)) * option error) :=
  match runErr r with
  | Some _ =>
      Ret (None, Some (errorString ("unable to retrieve container ports: " +:+ stdErr r)))
  | None =>
      let err : option error := None in
      let '(tokens, scanErr) := bufio.Scan (stdOut r) in
      match portLines err tokens ∅ with
      | scanReturn m e => Ret (m, e)
      | scanPanic => Panic
      | scanDone pm =>
          match scanErr with
          | Some e => Ret (None, Some e)
          | None => Ret (Some pm, None)
          end
      end
  end.

Definition getPublishedPorts (ctx : context) (cid : string)
    : M (option (gmap N (list string)) * option error) :=
  let* r := run (portCommand ctx cid) in
  fun h => (publishedPortsOf r, h).

Definition logsCommand (ctx : context) (cid : string) : command :=
  Command ctx dockerCmd ["logs"; cid].

(** What [getLogs] does with the finished command. *)
Definition logsOf (cid : string) (r : completed) : string * option error :=
  match runErr r with
  | Some err =>
      (EmptyString,
       Some (wrapError ("unable to retrieve logs for container " +:+ cid +:+ ": " +:+
                        Error err) err))
  | None => (combined r, None)
  end.

Definition getLogs (ctx : context) (cid : string) : M (string * option error) :=
  let* r := run (logsCommand ctx cid) in
  ret (logsOf cid r).

Definition volumesCommand (ctx : context) (cid : string) : command :=
  Command ctx dockerCmd [actionInspect; "-f"; volumesTemplate; cid].

(** What [getVolumes] does with the finished command [c]: the non-empty
    lines of its output. *)
Definition volumesOf (c : command) (r : completed) : list string * option error :=
  match runErr r with
  | Some _ =>
      ([], Some (errorString ("unable to inspect container: " +:+ stdErr r +:+ nl +:+
                              "args: [" +:+
                              gostrings.Join (cmdName c :: cmdArgs c) " " +:+ "]")))
  | None =>
      let '(tokens, scanErr) := bufio.Scan (stdOut r) in
      let volumes := filter (fun t => t ≠ EmptyString) tokens in
      match scanErr with
      | Some e => ([], Some e)
      | None => (volumes, None)
      end
  end.

Definition getVolumes (ctx : context) (cid : string) : M (list string * option error) :=
  let c := volumesCommand ctx cid in
  let* r := run c in
  ret (volumesOf c r).

Definition deleteCommand (ctx : context) (ids : list string) : command :=
  Command ctx dockerCmd ([actionVolume; "rm"] ++ ids).

Definition deleteVolumes (ctx : context) (ids : list string) : M (option error) :=
  let* r := run (deleteCommand ctx ids) in
  match runErr r with
  | Some _ => ret (Some (errorString ("unable to inspect container: " +:+ stdErr r)))
  | None => ret None
  end.

Definition stopCommand (ctx : context) (cid : string) : command :=
  Command ctx dockerCmd [actionContainer; "stop"; cid].

Definition stopContainer (ctx : context) (cid : string) : M (option error) :=
  let* r := run (stopCommand ctx cid) in
  match runErr r with
  | Some _ => ret (Some (errorString ("unable to stop container: " +:+ stdErr r)))
  | None => ret None
  end.

Definition removeCommand (ctx : context) (cid : string) : command :=
  Command ctx dockerCmd [actionContainer; "remove"; cid].

Definition removeContainer (ctx : context) (cid : string) : M (option error) :=
  let* r := run (removeCommand ctx cid) in
  match runErr r with
  | Some _ => ret (Some (errorString ("unable to remove container: " +:+ stdErr r)))
  | None => ret None
  end.

(** What an execution adapter hands back:
    [(stdOutCapture, stdErrCapture, exitCode, err)]. *)
Definition adapterResult (r : completed) : string * string * Z * option error :=
  (stdOut r, stdErr r, exitCode r, runErr r).

Definition dockerExecute (ctx : context) (cid : string) (cmd : list string)
    : M (string * string * Z * option error) :=
  let* r := run (Command ctx dockerCmd ([actionExec; cid] ++ cmd)) in
  ret (adapterResult r).

(** [command[0]] panics on an empty command. *)
Definition hostExecute (ctx : context) (cmd : list string)
    : M (string * string * Z * option error) :=
  match cmd with
  | [] => panic
  | name :: rest =>
      let* r := run (Command ctx name rest) in
      ret (adapterResult r)
  end.

(** *** The container file *)

(** [Stop]: stop, list the volumes, remove the container, delete the
    volumes. *)
Definition Stop (ctx : context) (c : Container) : M (option error) :=
  let* err := stopContainer ctx (id c) in
  match err with
  | Some e => ret (Some e)
  | None =>
      let* (ids, err) := getVolumes ctx (id c) in
      match err with
      | Some e => ret (Some e)
      | None =>
          let* err := removeContainer ctx (id c) in
          match err with
          | Some e => ret (Some e)
          | None =>
              if (length ids =? 0)%nat then ret None
              else deleteVolumes ctx ids
          end
      end
  end.

Definition Logs (ctx : context) (c : Container) : M (string * option error) :=
  getLogs ctx (id c).

(** What one tick of [WaitCmd] decides once the adapter has returned. *)
Inductive waitStep : Type :=
| waitFail (e : error)
| waitMet
| waitAgain.

Definition waitDecide (metCondition : string -> string -> Z -> bool)
    (res : string * string * Z * option error) : waitStep :=
  let '(outB, errB, code, err) := res in
  match err with
  | Some e =>
      if (code =? -1)%Z
      then waitFail (wrapError ("wait command errored: " +:+ Error e +:+ nl +:+
                                str TAB +:+ "stdErr:" +:+ errB +:+ nl +:+
                                str TAB +:+ "stdOut:" +:+ outB) e)
      else if negb (metCondition outB errB code) then waitAgain else waitMet
  | None =>
      if negb (metCondition outB errB code) then waitAgain else waitMet
  end.

(** The goroutine of [WaitCmd]: one round of the [for]/[select] per tick. *)
Fixpoint waitLoop (ticks : nat) (ctx : context) (c : Container) (cmd : list string)
    (metCondition : string -> string -> Z -> bool) (inCtr : bool) : M (option error) :=
  match ticks with
  | O => pending
  | S ticks' =>
      fun h =>
        if doneFires ctx h then (Ret (Some (ctxErr ctx)), h)
        else
          (let* res := (if inCtr then dockerExecute ctx (id c) cmd
                        else hostExecute ctx cmd) in
           match waitDecide metCondition res with
           | waitFail e => ret (Some e)
           | waitMet => ret None
           | waitAgain => waitLoop ticks' ctx c cmd metCondition inCtr
           end) h
  end.

Definition WaitCmd (ticks : nat) (ctx : context) (c : Container) (cmd : list string)
    (metCondition : string -> string -> Z -> bool) (opts : list WaitOption)
    : M (option error) :=
  let cfg := applyOptions opts {| inContainer := None |} in
  waitLoop ticks ctx c cmd metCondition
    (match inContainer cfg with Some b => b | None => false end).

(** The port-discovery goroutine of [newContainer]; the result is the value
    of [prtMpns] and what was sent on [errCh]. *)
Fixpoint discoverPorts (ticks : nat) (ctx : context) (cid : string)
    (prtMpns : option (gmap N (list string)))
    : M (option (gmap N (list string)) * option error) :=
  match ticks with
  | O => pending
  | S ticks' =>
      fun h =>
        if doneFires ctx h then (Ret (prtMpns, Some (ctxErr ctx)), h)
        else
          (let* (pm, pErr) := getPublishedPorts ctx cid in
           match pErr with
           | Some e => ret (prtMpns, Some e)
           | None =>
               if (mapLen pm =? 0)%nat
               then discoverPorts ticks' ctx cid prtMpns
               else ret (pm, None)
           end) h
  end.

(** [fmt.Errorf("[%s](%s) %w", imageName, id, err)] *)
Definition launchError (imageName cid : string) (err : error) : error :=
  wrapError ("[" +:+ imageName +:+ "](" +:+ cid +:+ ") " +:+ Error err) err.

(** [fmt.Errorf("[%s](%s) %w\nlogs:%s", imageName, id, err, l)] *)
Definition launchErrorLogs (imageName cid : string) (err : error) (l : string) : error :=
  wrapError ("[" +:+ imageName +:+ "](" +:+ cid +:+ ") " +:+ Error err +:+ nl +:+
             "logs:" +:+ l) err.

(** The deferred closure of [newContainer]; [err] is the function's local
    variable as the closure finds it. *)
Definition cleanup (cid : string) (err : option error) : M unit :=
  match err with
  | Some _ =>
      let ctr := {| id := cid; portMappings := None |} in
      let sCtx := WithTimeout Background (5 * Second) in
      let* _ := Stop sCtx ctr in
      ret tt
  | None => ret tt
  end.

(** [newContainer] after the deferred closure is registered: the final
    value of the local [err], then the returned pair. *)
Definition launched (ticks : nat) (ctx : context) (imageName cid : string)
    (exposedPorts : list (N * N))
    : M (option error * (option Container * option error)) :=
  let* err := containerIsAlive ticks ctx cid in
  match err with
  | Some e =>
      let* (l, _) := getLogs ctx cid in
      ret (Some e, (None, Some (launchErrorLogs imageName cid e l)))
  | None =>
      let prtMpns : option (gmap N (list string)) := Some ∅ in
      if (0 <? length exposedPorts)%nat
      then
        let* (prtMpns, err) := discoverPorts ticks ctx cid prtMpns in
        match err with
        | Some e =>
            let* (l, _) := getLogs ctx cid in
            ret (Some e, (None, Some (launchErrorLogs imageName cid e l)))
        | None =>
            ret (None, (Some {| id := cid; portMappings := prtMpns |}, None))
        end
      else ret (None, (Some {| id := cid; portMappings := prtMpns |}, None))
  end.

Definition newContainer (ticks : nat) (ctx : context) (imageName : string)
    (opts : list ContainerOption) : M (option Container * option error) :=
  let cfg := applyOptions opts
               {| args := None; env := None; mounts := None; ports := None |} in
  let arguments := deref (args cfg) in
  let envVars := deref (env cfg) in
  let exposedPorts := deref (ports cfg) in
  let mnts := deref (mounts cfg) in
  let* (cid, err) := startContainer ctx imageName arguments envVars exposedPorts mnts in
  match err with
  | Some e => ret (None, Some (launchError imageName cid e))
  | None =>
      let* (err, result) := launched ticks ctx imageName cid exposedPorts in
      let* _ := cleanup cid err in
      ret result
  end.

Definition StartContainer (ticks : nat) (ctx : context) (imageName : string)
    (opts : list ContainerOption) : M (option Container * option error) :=
  match LookPath dockerCmd with
  | Some err => ret (None, Some err)
  | None => newContainer ticks ctx imageName opts
  end.

(** *** Calls of the options, for the statements about their composition *)

Definition optionOf (o : optionCall) : ContainerOption :=
  match o with
  | callWithCmd arguments => WithCmd arguments
  | callWithEnvVar key value => WithEnvVar key value
  | callWithPort port target => WithPort port target
  | callWithRandomPort port => WithRandomPort port
  end.

(** What a call contributes to the environment sequence. *)
Definition envOf (o : optionCall) : list string :=
  match o with
  | callWithEnvVar key value => [gostrings.ToUpper unicodeUpper key +:+ "=" +:+ value]
  | _ => []
  end.

(** ** Facts about the library functions *)

Lemma sapp_nil (s : string) : EmptyString +:+ s = s.
Proof. reflexivity. Qed.

Lemma sapp_cons x (a b : string) : String x a +:+ b = String x (a +:+ b).
Proof. reflexivity. Qed.

Lemma sapp_nil_r (s : string) : s +:+ EmptyString = s.
Proof. induction s as [|x s IH]; [reflexivity | now rewrite sapp_cons, IH]. Qed.

Lemma sapp_assoc (a b c : string) : (a +:+ b) +:+ c = a +:+ (b +:+ c).
Proof.
  induction a as [|x a IH]; [reflexivity | now rewrite !sapp_cons, IH].
Qed.

Lemma sapp_length (a b : string) :
  String.length (a +:+ b) = (String.length a + String.length b)%nat.
Proof.
  induction a as [|x a IH]; [reflexivity|].
  rewrite sapp_cons. simpl. now rewrite IH.
Qed.

Lemma hasByte_append c (a b : string) :
  gostrings.hasByte c (a +:+ b) = (gostrings.hasByte c a || gostrings.hasByte c b)%bool.
Proof.
  induction a as [|x a IH]; [reflexivity|].
  rewrite sapp_cons. simpl. rewrite IH. now rewrite orb_assoc.
Qed.

Lemma hasByte_head c x (s : string) :
  gostrings.hasByte c (String x s) = false -> x <> c /\ gostrings.hasByte c s = false.
Proof.
  simpl. intros H. apply orb_false_elim in H as [Hx Hs].
  split; [|assumption]. now apply Ascii.eqb_neq.
Qed.

Lemma HasPrefix_append (p s : string) : gostrings.HasPrefix (p +:+ s) p = true.
Proof.
  induction p as [|x p IH]; [reflexivity|].
  rewrite sapp_cons. simpl. now rewrite Ascii.eqb_refl.
Qed.

Lemma HasPrefix_other c x (s p : string) :
  c <> x -> gostrings.HasPrefix (String c s) (String x p) = false.
Proof. intros H. simpl. apply Ascii.eqb_neq in H. now rewrite H. Qed.

Lemma splitFrom_nonempty sep k (s : string) : gostrings.splitFrom sep k s <> [].
Proof.
  revert k. induction s as [|c s IH]; intros k; simpl; [discriminate|].
  destruct k as [|k]; [|apply IH].
  destruct (gostrings.HasPrefix (String c s) sep); [discriminate|].
  destruct (gostrings.splitFrom sep 0 s); discriminate.
Qed.

Lemma splitFrom_skip sep (t b : string) :
  gostrings.splitFrom sep (String.length t) (t +:+ b) = gostrings.splitFrom sep 0 b.
Proof. induction t as [|x t IH]; [reflexivity | rewrite sapp_cons; exact IH]. Qed.

(** Up to the first separator: a piece that does not hold the first byte of
    the separator is cut off whole. *)
Lemma Split_first c0 sep' (a b : string) :
  gostrings.hasByte c0 a = false ->
  gostrings.Split (a +:+ String c0 sep' +:+ b) (String c0 sep') =
  a :: gostrings.Split b (String c0 sep').
Proof.
  unfold gostrings.Split. intros Ha.
  induction a as [|x a IH].
  - change (EmptyString +:+ String c0 sep' +:+ b) with (String c0 (sep' +:+ b)).
    cbn [gostrings.splitFrom].
    change (String c0 (sep' +:+ b)) with (String c0 sep' +:+ b).
    rewrite HasPrefix_append.
    replace (String.length (String c0 sep') - 1)%nat with (String.length sep')
      by (simpl; lia).
    rewrite splitFrom_skip. reflexivity.
  - apply hasByte_head in Ha as [Hx Ha].
    change (String x a +:+ String c0 sep' +:+ b)
      with (String x (a +:+ String c0 sep' +:+ b)).
    cbn [gostrings.splitFrom].
    rewrite HasPrefix_other by assumption.
    now rewrite (IH Ha).
Qed.

(** No separator: the string is the only piece. *)
Lemma Split_whole c0 sep' (b : string) :
  gostrings.hasByte c0 b = false ->
  gostrings.Split b (String c0 sep') = [b].
Proof.
  unfold gostrings.Split. intros Hb.
  induction b as [|x b IH]; [reflexivity|].
  apply hasByte_head in Hb as [Hx Hb].
  cbn [gostrings.splitFrom].
  rewrite HasPrefix_other by assumption.
  now rewrite (IH Hb).
Qed.

(** No occurrence of the separator: the string is the only piece. *)
Lemma Split_absent (sep b : string) :
  sep <> EmptyString ->
  gostrings.Contains b sep = false ->
  gostrings.Split b sep = [b].
Proof.
  unfold gostrings.Split. intros Hsep.
  induction b as [|x b IH]; intros H; [reflexivity|].
  cbn [gostrings.Contains] in H. apply orb_false_elim in H as [Hp Hc].
  cbn [gostrings.splitFrom]. rewrite Hp. now rewrite (IH Hc).
Qed.

(** A string that holds the separator is cut in two pieces at least. *)
Lemma Split_two (s sep : string) :
  sep <> EmptyString ->
  gostrings.Contains s sep = true ->
  exists a b rest, gostrings.Split s sep = a :: b :: rest.
Proof.
  unfold gostrings.Split. intros Hsep.
  induction s as [|c s IH]; intros H.
  - destruct sep; [congruence | discriminate].
  - cbn [gostrings.splitFrom].
    destruct (gostrings.HasPrefix (String c s) sep) eqn:Hp.
    + destruct (gostrings.splitFrom sep (String.length sep - 1) s) eqn:Hs.
      * now apply splitFrom_nonempty in Hs.
      * eauto.
    + cbn [gostrings.Contains] in H. rewrite Hp in H. simpl in H.
      destruct (IH H) as (a & b & rest & ->). eauto.
Qed.

Lemma replaceFrom_skip old new (t b : string) :
  gostrings.replaceFrom old new (String.length t) (t +:+ b) =
  gostrings.replaceFrom old new 0 b.
Proof. induction t as [|x t IH]; [reflexivity | rewrite sapp_cons; exact IH]. Qed.

(** Removing a suffix from a string that does not hold its first byte. *)
Lemma ReplaceAll_suffix c0 old' (d : string) :
  gostrings.hasByte c0 d = false ->
  gostrings.ReplaceAll (d +:+ String c0 old') (String c0 old') EmptyString = d.
Proof.
  unfold gostrings.ReplaceAll. intros Hd.
  induction d as [|x d IH].
  - change (EmptyString +:+ String c0 old') with (String c0 old').
    cbn [gostrings.replaceFrom].
    rewrite <- (sapp_nil_r (String c0 old')) at 1.
    rewrite HasPrefix_append.
    replace (String.length (String c0 old') - 1)%nat with (String.length old')
      by (simpl; lia).
    rewrite sapp_nil.
    pose proof (replaceFrom_skip (String c0 old') EmptyString old' EmptyString) as H.
    now rewrite sapp_nil_r in H.
  - apply hasByte_head in Hd as [Hx Hd].
    change (String x d +:+ String c0 old') with (String x (d +:+ String c0 old')).
    cbn [gostrings.replaceFrom].
    rewrite HasPrefix_other by assumption.
    now rewrite (IH Hd).
Qed.

(** A string that [ParseUint] accepts is made of decimal digits. *)
Lemma parseLoop_digits c n (s : string) v :
  strconv.parseLoop n s = Some v ->
  strconv.digitOf c = None ->
  gostrings.hasByte c s = false.
Proof.
  revert n. induction s as [|x s IH]; intros n H Hc; [reflexivity|].
  simpl in H. destruct (strconv.digitOf x) as [d|] eqn:Hx; [|discriminate].
  destruct (strconv.cutoff <=? n); [discriminate|].
  destruct (strconv.maxUint64 <? n * 10 + d); [discriminate|].
  simpl. rewrite (IH _ H Hc), orb_false_r.
  apply Ascii.eqb_neq. intros ->. congruence.
Qed.

Lemma ParseUint_digits c (s : string) v :
  strconv.ParseUint s = Some v ->
  strconv.digitOf c = None ->
  gostrings.hasByte c s = false.
Proof.
  destruct s as [|x s]; [discriminate|].
  unfold strconv.ParseUint. apply parseLoop_digits.
Qed.

Lemma rawLines_line (l rest : string) :
  gostrings.hasByte LF l = false ->
  bufio.rawLines (l +:+ nl +:+ rest) = l :: bufio.rawLines rest.
Proof.
  intros Hl. induction l as [|x l IH].
  - reflexivity.
  - apply hasByte_head in Hl as [Hx Hl].
    change (String x l +:+ nl +:+ rest) with (String x (l +:+ nl +:+ rest)).
    cbn [bufio.rawLines].
    apply Ascii.eqb_neq in Hx. rewrite Hx.
    now rewrite (IH Hl).
Qed.

Lemma dropCR_plain (s : string) :
  gostrings.hasByte CR s = false -> bufio.dropCR s = s.
Proof.
  induction s as [|x s IH]; intros H; [reflexivity|].
  apply hasByte_head in H as [Hx Hs].
  cbn [bufio.dropCR]. destruct s as [|y s].
  - apply Ascii.eqb_neq in Hx. now rewrite Hx.
  - now rewrite (IH Hs).
Qed.

Lemma substring_prefix n (s : string) :
  (n <= String.length s)%nat ->
  exists rest, s = substring 0 n s +:+ rest /\ String.length (substring 0 n s) = n.
Proof.
  revert s. induction n as [|n IH]; intros s Hn.
  - exists s. destruct s; split; reflexivity.
  - destruct s as [|x s]; [simpl in Hn; lia|].
    destruct (IH s) as (rest & Hs & Hl); [simpl in Hn; lia|].
    exists rest. simpl. rewrite sapp_cons, <- Hs, Hl. split; reflexivity.
Qed.

Lemma fold_left_append {A B} (f : B -> list A) (l : list B) (a : list A) :
  fold_left (fun a x => a ++ f x) l a = a ++ flat_map f l.
Proof.
  revert a. induction l as [|x l IH]; intros a; simpl.
  - now rewrite app_nil_r.
  - now rewrite IH, <- app_assoc.
Qed.

(** ** The monad *)

Lemma run_eq c h : run c h = (Ret (exec h c), h ++ [c]).
Proof. reflexivity. Qed.

Lemma bind_run {B} c (k : completed -> M B) h :
  bind (run c) k h = k (exec h c) (h ++ [c]).
Proof. reflexivity. Qed.

(** ** The launcher's command line *)

(** The four loops of [startContainer], flag by flag. *)
Lemma startArgs_flags imageName arguments envVars exposedPorts mnts :
  startArgs imageName arguments envVars exposedPorts mnts =
  [actionRun; "-d"]
    ++ flat_map (fun p => ["-p"; portSeq p]) exposedPorts
    ++ flat_map (fun e => ["-e"; e]) envVars
    ++ flat_map (fun m => ["--mount"; mountSeq m]) mnts
    ++ [imageName] ++ arguments.
Proof.
  unfold startArgs. rewrite !fold_left_append. now rewrite <- !app_assoc.
Qed.

(** The operand of [-p]: the bare container port for host port 0, else the
    container port, a colon and the host port. *)
Lemma portSeq_spec port target :
  portSeq (port, target) =
  if target =? 0 then strconv.FormatUint port
  else strconv.FormatUint port +:+ ":" +:+ strconv.FormatUint target.
Proof. reflexivity. Qed.

Lemma startContainer_runs ctx imageName arguments envVars exposedPorts mnts h :
  snd (startContainer ctx imageName arguments envVars exposedPorts mnts h) =
  h ++ [Command ctx dockerCmd (startArgs imageName arguments envVars exposedPorts mnts)].
Proof.
  unfold startContainer. rewrite bind_run.
  destruct (runErr _); [reflexivity|].
  destruct (idLength <=? _)%nat; reflexivity.
Qed.

(** C1, at the README's own example [WithPort(27017, 8080)] (internal port
    27017, to be exposed on host port 8080): the [-p] operand that
    [startContainer] hands to docker is [27017:8080], the internal port
    before the colon and the host port after it, and not the
    [host:internal] form [8080:27017] that docker's [-p] reads. *)
Theorem startContainer_port_operand_internal_first ctx h :
  snd (startContainer ctx "mongo:7-jammy" [] [] [(27017, 8080)] [] h) =
  h ++ [Command ctx "docker" ["run"; "-d"; "-p"; "27017:8080"; "mongo:7-jammy"]].
Proof. rewrite startContainer_runs. reflexivity. Qed.

(** C6, with the length made explicit: when [docker run] exits zero and has
    printed at least 12 bytes, [startContainer] returns exactly the first 12
    bytes of the captured standard output, untrimmed and unchecked, and no
    error. *)
Theorem startContainer_id_is_first_12_bytes
    ctx imageName arguments envVars exposedPorts mnts h :
  let c := Command ctx dockerCmd
             (startArgs imageName arguments envVars exposedPorts mnts) in
  runErr (exec h c) = None ->
  (12 <= String.length (stdOut (exec h c)))%nat ->
  exists cid rest,
    startContainer ctx imageName arguments envVars exposedPorts mnts h =
      (Ret (cid, None), h ++ [c]) /\
    stdOut (exec h c) = cid +:+ rest /\
    String.length cid = 12%nat.
Proof.
  intros c Herr Hlen.
  destruct (substring_prefix 12 (stdOut (exec h c)) Hlen) as (rest & Hs & Hl).
  exists (substring 0 12 (stdOut (exec h c))), rest.
  split; [|split; assumption].
  unfold startContainer. rewrite bind_run. fold c. rewrite Herr.
  unfold idLength.
  destruct (Nat.leb_spec 12 (String.length (stdOut (exec h c)))); [reflexivity | lia].
Qed.

(** ** Options *)

Lemma upperByte_not_lower c :
  N_of_ascii c < 128 -> isLower (gostrings.upperByte c) = false.
Proof.
  intros Hc. unfold gostrings.upperByte, isLower.
  destruct ((97 <=? N_of_ascii c) && (N_of_ascii c <=? 122)) eqn:E; [|exact E].
  apply andb_true_iff in E as [E1 E2].
  apply N.leb_le in E1, E2.
  rewrite N_ascii_embedding by lia.
  apply andb_false_iff. left. apply N.leb_gt. lia.
Qed.

Lemma mapBytes_upper_no_lower (s : string) :
  gostrings.isASCII s = true ->
  forallb (fun c => negb (isLower c))
    (list_ascii_of_string (gostrings.mapBytes gostrings.upperByte s)) = true.
Proof.
  unfold gostrings.isASCII.
  induction s as [|x s IH]; intros H; [reflexivity|].
  simpl in H. apply andb_true_iff in H as [Hx Hs].
  simpl. rewrite (IH Hs), andb_true_r.
  apply N.ltb_lt in Hx. now rewrite upperByte_not_lower.
Qed.

(** C10: [WithEnvVar key value] appends the one entry
    [strings.ToUpper(key) + "=" + value] to the environment sequence (a
    nil sequence counting as empty) and touches nothing else; the key goes
    through [strings.ToUpper], so an ASCII key is left without lower-case
    letters, and the value is appended as it is. *)
Theorem WithEnvVar_appends_uppercased_key key value cfg :
  env (WithEnvVar key value cfg) =
    Some (deref (env cfg) ++ [gostrings.ToUpper unicodeUpper key +:+ "=" +:+ value]) /\
  args (WithEnvVar key value cfg) = args cfg /\
  mounts (WithEnvVar key value cfg) = mounts cfg /\
  ports (WithEnvVar key value cfg) = ports cfg /\
  (gostrings.isASCII key = true ->
   gostrings.ToUpper unicodeUpper key = gostrings.mapBytes gostrings.upperByte key /\
   forallb (fun c => negb (isLower c))
     (list_ascii_of_string (gostrings.ToUpper unicodeUpper key)) = true).
Proof.
  repeat split; try reflexivity.
  - unfold gostrings.ToUpper. now rewrite H.
  - unfold gostrings.ToUpper. rewrite H. now apply mapBytes_upper_no_lower.
Qed.

(** ** The liveness poller *)

Lemma containerIsAlive_tick ticks ctx cid h :
  containerIsAlive (S ticks) ctx cid h =
  match statusOf (exec h (inspectCommand ctx cid)) with
  | failed e => (Ret (Some e), h ++ [inspectCommand ctx cid])
  | running => (Ret None, h ++ [inspectCommand ctx cid])
  | starting => containerIsAlive ticks ctx cid (h ++ [inspectCommand ctx cid])
  end.
Proof.
  cbn [containerIsAlive]. rewrite bind_run.
  destruct (statusOf _); reflexivity.
Qed.

Lemma statusOf_running r : statusOf r = running ->
  runErr r = None /\ stdOut r = stateRunning.
Proof.
  unfold statusOf. destruct (runErr r); [discriminate|].
  destruct (_ || _)%bool; [discriminate|].
  destruct (String.eqb_spec (stdOut r) stateRunning); [auto | discriminate].
Qed.

(** Success is only ever reported by an inspection that printed the
    running status. *)
Lemma containerIsAlive_success ticks ctx cid h h' :
  containerIsAlive ticks ctx cid h = (Ret None, h') ->
  exists h0,
    h' = h0 ++ [inspectCommand ctx cid] /\
    runErr (exec h0 (inspectCommand ctx cid)) = None /\
    stdOut (exec h0 (inspectCommand ctx cid)) = stateRunning.
Proof.
  revert h. induction ticks as [|ticks IH]; intros h H; [discriminate|].
  rewrite containerIsAlive_tick in H.
  destruct (statusOf _) eqn:E.
  - apply (IH _ H).
  - apply statusOf_running in E as [E1 E2].
    injection H as <-. eauto.
  - discriminate.
Qed.

(** C2: with the inspection itself succeeding, the tick maps the printed
    status to exactly one outcome: the four failure statuses end the
    poller with an error whose text holds the raw status string; the
    running status ends it with success; every other string (the created
    status, anything unrecognised) leaves it polling on the next tick; and
    whenever the poller reports success, the inspection it stopped at
    printed the running status. *)
Theorem containerIsAlive_status_mapping ticks ctx cid h :
  let c := inspectCommand ctx cid in
  let r := exec h c in
  runErr r = None ->
  (stdOut r ∈ [stateDead; stateExited; statePaused; stateRestarting] ->
   containerIsAlive (S ticks) ctx cid h =
     (Ret (Some (errorString ("container in invalid state: " +:+ stdOut r +:+ nl +:+
                              "stdOut:" +:+ stdOut r +:+ nl +:+
                              "stdErr:" +:+ stdErr r))), h ++ [c])) /\
  (stdOut r = stateRunning ->
   containerIsAlive (S ticks) ctx cid h = (Ret None, h ++ [c])) /\
  (stdOut r ∉ [stateDead; stateExited; statePaused; stateRestarting; stateRunning] ->
   statusOf r = starting /\
   containerIsAlive (S ticks) ctx cid h = containerIsAlive ticks ctx cid (h ++ [c])) /\
  (forall n h0 h', containerIsAlive n ctx cid h0 = (Ret None, h') ->
   exists h1, h' = h1 ++ [c] /\ stdOut (exec h1 c) = stateRunning).
Proof.
  intros c r Herr. repeat split.
  - intros Hin. rewrite containerIsAlive_tick. fold c r.
    unfold statusOf. rewrite Herr.
    assert ((String.eqb (stdOut r) stateDead || String.eqb (stdOut r) stateExited ||
             String.eqb (stdOut r) statePaused ||
             String.eqb (stdOut r) stateRestarting)%bool = true) as ->; [|reflexivity].
    rewrite !elem_of_cons in Hin.
    destruct Hin as [-> | [-> | [-> | [-> | Hin]]]];
      [reflexivity..| now apply elem_of_nil in Hin].
  - intros Hrun. rewrite containerIsAlive_tick. fold c r.
    unfold statusOf. rewrite Herr, Hrun. reflexivity.
  - unfold statusOf. rewrite Herr.
    rewrite !not_elem_of_cons in H.
    destruct H as (H1 & H2 & H3 & H4 & H5 & _).
    apply String.eqb_neq in H1, H2, H3, H4, H5.
    now rewrite H1, H2, H3, H4, H5.
  - rewrite containerIsAlive_tick. fold c r.
    unfold statusOf. rewrite Herr.
    rewrite !not_elem_of_cons in H.
    destruct H as (H1 & H2 & H3 & H4 & H5 & _).
    apply String.eqb_neq in H1, H2, H3, H4, H5.
    now rewrite H1, H2, H3, H4, H5.
  - intros n h0 h' H.
    destruct (containerIsAlive_success _ _ _ _ _ H) as (h1 & -> & _ & Hs).
    eauto.
Qed.

(** ** Teardown *)

(** The only error of the scanner is [ErrTooLong]. *)
Lemma Scan_error (input : string) (e : error) :
  snd (bufio.Scan input) = Some e -> e = bufio.ErrTooLong.
Proof.
  unfold bufio.Scan. induction (bufio.rawLines input) as [|l ls IH]; cbn [bufio.scanTokens].
  - discriminate.
  - destruct (bufio.MaxScanTokenSize <=? N.of_nat (String.length l)).
    + now intros [= <-].
    + destruct (bufio.scanTokens ls) as [ts e']. exact IH.
Qed.

(** [Stop], step by step. *)
Lemma Stop_run ctx c h :
  let c1 := stopCommand ctx (id c) in
  let c2 := volumesCommand ctx (id c) in
  let c3 := removeCommand ctx (id c) in
  let r1 := exec h c1 in
  let r2 := exec (h ++ [c1]) c2 in
  let r3 := exec (h ++ [c1; c2]) c3 in
  let c4 := deleteCommand ctx (fst (volumesOf c2 r2)) in
  let r4 := exec (h ++ [c1; c2; c3]) c4 in
  Stop ctx c h =
  match runErr r1 with
  | Some _ =>
      (Ret (Some (errorString ("unable to stop container: " +:+ stdErr r1))), h ++ [c1])
  | None =>
      match snd (volumesOf c2 r2) with
      | Some e => (Ret (Some e), h ++ [c1; c2])
      | None =>
          match runErr r3 with
          | Some _ =>
              (Ret (Some (errorString ("unable to remove container: " +:+ stdErr r3))),
               h ++ [c1; c2; c3])
          | None =>
              match fst (volumesOf c2 r2) with
              | [] => (Ret None, h ++ [c1; c2; c3])
              | _ :: _ =>
                  (Ret (match runErr r4 with
                        | Some _ =>
                            Some (errorString ("unable to inspect container: " +:+ stdErr r4))
                        | None => None
                        end), h ++ [c1; c2; c3; c4])
              end
          end
      end
  end.
Proof.
  intros c1 c2 c3 r1 r2 r3 c4 r4.
  unfold Stop, stopContainer. unfold bind at 1. rewrite bind_run. fold c1 r1.
  destruct (runErr r1); [reflexivity|]. cbn [ret].
  unfold getVolumes. unfold bind at 1. rewrite bind_run. fold c2 r2. cbn [ret].
  replace ((h ++ [c1]) ++ [c2]) with (h ++ [c1; c2]) by now rewrite <- app_assoc.
  destruct (volumesOf c2 r2) as [ids verr] eqn:Hv. cbn [fst snd].
  destruct verr; [reflexivity|].
  unfold removeContainer. unfold bind at 1. rewrite bind_run. fold c3 r3.
  replace ((h ++ [c1; c2]) ++ [c3]) with (h ++ [c1; c2; c3]) by now rewrite <- app_assoc.
  destruct (runErr r3); [reflexivity|]. cbn [ret].
  destruct ids as [|v ids]; [reflexivity|].
  cbn [length Nat.eqb].
  unfold deleteVolumes. rewrite bind_run.
  replace ((h ++ [c1; c2; c3]) ++ [deleteCommand ctx (v :: ids)])
    with (h ++ [c1; c2; c3; deleteCommand ctx (v :: ids)]) by now rewrite <- app_assoc.
  subst c4 r4. cbn [fst].
  destruct (runErr _); reflexivity.
Qed.

(** [Stop] always returns, its first command is the stop command, and
    every command it runs is run under the context it was given. *)
Lemma Stop_trace ctx c h :
  exists err more,
    Stop ctx c h = (Ret err, h ++ stopCommand ctx (id c) :: more) /\
    Forall (fun x => cmdCtx x = ctx) more.
Proof.
  rewrite Stop_run. cbv zeta.
  repeat match goal with
         | |- context [match ?x with _ => _ end] => destruct x
         end;
    eexists _, _; (split; [reflexivity|]); repeat constructor.
Qed.

(** [Stop] on what the four commands gave: the inspection step fails when
    the command does, or when the scanner stops on a line that does not
    fit in its buffer. *)
Lemma Stop_outcome ctx c h :
  let c1 := stopCommand ctx (id c) in
  let c2 := volumesCommand ctx (id c) in
  let c3 := removeCommand ctx (id c) in
  let r1 := exec h c1 in
  let r2 := exec (h ++ [c1]) c2 in
  let r3 := exec (h ++ [c1; c2]) c3 in
  let ids := filter (fun t => t ≠ EmptyString) (fst (bufio.Scan (stdOut r2))) in
  let c4 := Command ctx dockerCmd ([actionVolume; "rm"] ++ ids) in
  let r4 := exec (h ++ [c1; c2; c3]) c4 in
  Stop ctx c h =
  match runErr r1 with
  | Some _ =>
      (Ret (Some (errorString ("unable to stop container: " +:+ stdErr r1))), h ++ [c1])
  | None =>
      match runErr r2 with
      | Some _ =>
          (Ret (Some (errorString
                        ("unable to inspect container: " +:+ stdErr r2 +:+ nl +:+
                         "args: [" +:+
                         gostrings.Join [dockerCmd; actionInspect; "-f"; volumesTemplate; id c]
                           " " +:+ "]"))),
           h ++ [c1; c2])
      | None =>
          match snd (bufio.Scan (stdOut r2)) with
          | Some e => (Ret (Some e), h ++ [c1; c2])
          | None =>
              match runErr r3 with
              | Some _ =>
                  (Ret (Some (errorString ("unable to remove container: " +:+ stdErr r3))),
                   h ++ [c1; c2; c3])
              | None =>
                  match ids with
                  | [] => (Ret None, h ++ [c1; c2; c3])
                  | _ :: _ =>
                      (Ret (match runErr r4 with
                            | Some _ =>
                                Some (errorString
                                        ("unable to inspect container: " +:+ stdErr r4))
                            | None => None
                            end), h ++ [c1; c2; c3; c4])
                  end
              end
          end
      end
  end.
Proof.
  intros c1 c2 c3 r1 r2 r3 ids c4 r4.
  rewrite Stop_run. fold c1 c2 c3 r1 r2 r3.
  destruct (runErr r1); [reflexivity|].
  unfold volumesOf. subst ids c4 r4.
  destruct (runErr r2); [reflexivity|].
  destruct (bufio.Scan (stdOut r2)) as [tokens [e|]]; cbn [fst snd]; [reflexivity|].
  destruct (runErr r3); [reflexivity|].
  destruct (filter _ tokens); reflexivity.
Qed.

(** C3: [Stop] runs, in this order, the stop command, the inspection that
    lists the volume-type mounts, the removal of the container and, only
    when the inspection printed the name of a volume, one
    [docker volume rm] naming all of them (the non-empty lines of the
    inspection's output, in order). The first step that fails ends [Stop]
    with its error and nothing is run after it: the stop command exiting
    with an error, the inspection exiting with an error or its output
    holding a line too long for the scanner, the removal exiting with an
    error. In particular a failing stop leaves the stop command as the only
    command run. *)
Theorem Stop_is_sequential_and_fail_fast ctx c h :
  let c1 := stopCommand ctx (id c) in
  let c2 := volumesCommand ctx (id c) in
  let c3 := removeCommand ctx (id c) in
  let r1 := exec h c1 in
  let r2 := exec (h ++ [c1]) c2 in
  let r3 := exec (h ++ [c1; c2]) c3 in
  let ids := filter (fun t => t ≠ EmptyString) (fst (bufio.Scan (stdOut r2))) in
  let c4 := Command ctx dockerCmd ([actionVolume; "rm"] ++ ids) in
  let r4 := exec (h ++ [c1; c2; c3]) c4 in
  exists err steps,
    Stop ctx c h = (Ret err, h ++ steps) /\
    ((runErr r1 <> None /\ steps = [c1] /\
      err = Some (errorString ("unable to stop container: " +:+ stdErr r1)))
     \/
     (runErr r1 = None /\ runErr r2 <> None /\ steps = [c1; c2] /\
      err = Some (errorString
                    ("unable to inspect container: " +:+ stdErr r2 +:+ nl +:+
                     "args: [" +:+
                     gostrings.Join [dockerCmd; actionInspect; "-f"; volumesTemplate; id c]
                       " " +:+ "]")))
     \/
     (runErr r1 = None /\ runErr r2 = None /\
      snd (bufio.Scan (stdOut r2)) = Some bufio.ErrTooLong /\
      steps = [c1; c2] /\ err = Some bufio.ErrTooLong)
     \/
     (runErr r1 = None /\ runErr r2 = None /\ snd (bufio.Scan (stdOut r2)) = None /\
      runErr r3 <> None /\ steps = [c1; c2; c3] /\
      err = Some (errorString ("unable to remove container: " +:+ stdErr r3)))
     \/
     (runErr r1 = None /\ runErr r2 = None /\ snd (bufio.Scan (stdOut r2)) = None /\
      runErr r3 = None /\ ids = [] /\ steps = [c1; c2; c3] /\ err = None)
     \/
     (runErr r1 = None /\ runErr r2 = None /\ snd (bufio.Scan (stdOut r2)) = None /\
      runErr r3 = None /\ ids <> [] /\ steps = [c1; c2; c3; c4] /\
      err = match runErr r4 with
            | Some _ => Some (errorString ("unable to inspect container: " +:+ stdErr r4))
            | None => None
            end)).
Proof.
  intros c1 c2 c3 r1 r2 r3 ids c4 r4.
  rewrite Stop_outcome. fold c1 c2 c3 r1 r2 r3. fold ids. fold c4. fold r4.
  destruct (runErr r1) eqn:E1.
  { eexists _, _. split; [reflexivity|]. left. repeat split. discriminate. }
  destruct (runErr r2) eqn:E2.
  { eexists _, _. split; [reflexivity|]. right; left. repeat split. discriminate. }
  destruct (snd (bufio.Scan (stdOut r2))) as [e|] eqn:E5.
  { assert (e = bufio.ErrTooLong) as -> by exact (Scan_error _ _ E5).
    eexists _, _. split; [reflexivity|]. do 2 right; left. repeat split. }
  destruct (runErr r3) eqn:E3.
  { eexists _, _. split; [reflexivity|]. do 3 right; left. repeat split. discriminate. }
  destruct ids as [|v vs] eqn:Ei.
  { eexists _, _. split; [reflexivity|]. do 4 right; left. repeat split. }
  eexists _, _. split; [reflexivity|]. do 5 right. repeat split. discriminate.
Qed.

(** ** The conditional wait engine *)

Lemma waitLoop_tick ticks ctx c cmd met (inCtr : bool) h res h' :
  doneFires ctx h = false ->
  (if inCtr then dockerExecute ctx (id c) cmd else hostExecute ctx cmd) h = (Ret res, h') ->
  waitLoop (S ticks) ctx c cmd met inCtr h =
  match waitDecide met res with
  | waitFail e => (Ret (Some e), h')
  | waitMet => (Ret None, h')
  | waitAgain => waitLoop ticks ctx c cmd met inCtr h'
  end.
Proof.
  intros Hd Ha. cbn [waitLoop]. rewrite Hd. unfold bind at 1. rewrite Ha.
  destruct (waitDecide met res); reflexivity.
Qed.

(** An adapter that returns has run exactly one command. *)
Lemma adapter_one_command ctx cid cmd (inCtr : bool) h res h' :
  (if inCtr then dockerExecute ctx cid cmd else hostExecute ctx cmd) h = (Ret res, h') ->
  exists c, h' = h ++ [c] /\ res = adapterResult (exec h c).
Proof.
  destruct inCtr.
  - unfold dockerExecute. rewrite bind_run. cbn [ret]. intros [= <- <-]. eauto.
  - unfold hostExecute. destruct cmd as [|name rest]; [discriminate|].
    rewrite bind_run. cbn [ret]. intros [= <- <-]. eauto.
Qed.

(** C4: on a tick at which the adapter returns [(outB, errB, code, err)],
    [WaitCmd] fails at once, with no further command run, exactly when
    [err] is not nil and [code] is -1; otherwise the predicate decides,
    also when [err] is not nil: true ends the wait with nil, false leaves
    the wait to the next tick. *)
Theorem WaitCmd_tick_decision ticks ctx c cmd met opts h outB errB code err h' :
  let inCtr := match inContainer (applyOptions opts {| inContainer := None |}) with
               | Some b => b
               | None => false
               end in
  doneFires ctx h = false ->
  (if inCtr then dockerExecute ctx (id c) cmd else hostExecute ctx cmd) h =
    (Ret (outB, errB, code, err), h') ->
  (exists probe, h' = h ++ [probe]) /\
  ((exists e, waitDecide met (outB, errB, code, err) = waitFail e) <->
   (err <> None /\ code = (-1)%Z)) /\
  (forall e, err = Some e -> code = (-1)%Z ->
   WaitCmd (S ticks) ctx c cmd met opts h =
     (Ret (Some (wrapError ("wait command errored: " +:+ Error e +:+ nl +:+
                            str TAB +:+ "stdErr:" +:+ errB +:+ nl +:+
                            str TAB +:+ "stdOut:" +:+ outB) e)), h')) /\
  (err = None \/ code <> (-1)%Z ->
   met outB errB code = true ->
   WaitCmd (S ticks) ctx c cmd met opts h = (Ret None, h')) /\
  (err = None \/ code <> (-1)%Z ->
   met outB errB code = false ->
   WaitCmd (S ticks) ctx c cmd met opts h = WaitCmd ticks ctx c cmd met opts h').
Proof.
  intros inCtr Hd Ha.
  split; [|split; [|split; [|split]]].
  - destruct (adapter_one_command _ _ _ _ _ _ _ Ha) as (probe & -> & _). eauto.
  - unfold waitDecide. split.
    + intros [e He]. destruct err as [e0|].
      * destruct (Z.eqb_spec code (-1)); [split; [discriminate | assumption]|].
        destruct (met outB errB code); discriminate.
      * destruct (met outB errB code); discriminate.
    + intros [He ->]. destruct err as [e0|]; [|congruence].
      cbn. eauto.
  - intros e -> ->. unfold WaitCmd. fold inCtr.
    rewrite (waitLoop_tick _ _ _ _ _ _ _ _ _ Hd Ha). reflexivity.
  - intros Hran Hmet. unfold WaitCmd. fold inCtr.
    rewrite (waitLoop_tick _ _ _ _ _ _ _ _ _ Hd Ha).
    unfold waitDecide. rewrite Hmet.
    destruct err as [e|]; [|reflexivity].
    destruct Hran as [Hran | Hran]; [discriminate|].
    apply Z.eqb_neq in Hran. now rewrite Hran.
  - intros Hran Hmet. unfold WaitCmd. fold inCtr.
    rewrite (waitLoop_tick _ _ _ _ _ _ _ _ _ Hd Ha).
    unfold waitDecide. rewrite Hmet.
    destruct err as [e|]; [|reflexivity].
    destruct Hran as [Hran | Hran]; [discriminate|].
    apply Z.eqb_neq in Hran. now rewrite Hran.
Qed.

(** ** Published ports *)

Lemma publishedLine_parts port address :
  publishedLine port address = (port +:+ "/tcp") +:+ " -> " +:+ address.
Proof. unfold publishedLine. now rewrite sapp_assoc. Qed.

Lemma publishedLine_no_byte c port address p :
  strconv.ParseUint port = Some p ->
  strconv.digitOf c = None ->
  gostrings.hasByte c "/tcp -> " = false ->
  gostrings.hasByte c address = false ->
  gostrings.hasByte c (publishedLine port address) = false.
Proof.
  intros Hp Hc Hm Ha. unfold publishedLine.
  rewrite !hasByte_append, (ParseUint_digits _ _ _ Hp Hc), Hm, Ha. reflexivity.
Qed.

(** One published line, as the loop of [getPublishedPorts] reads it. *)
Lemma published_line_read port address p :
  strconv.ParseUint port = Some p ->
  gostrings.Contains address " -> " = false ->
  gostrings.Split (publishedLine port address) " -> " = [port +:+ "/tcp"; address] /\
  gostrings.ReplaceAll (port +:+ "/tcp") "/tcp" "" = port.
Proof.
  intros Hp Ha. split.
  - rewrite publishedLine_parts.
    rewrite (Split_first " " "-> " (port +:+ "/tcp") address).
    + now rewrite (Split_absent " -> " address ltac:(discriminate) Ha).
    + rewrite hasByte_append.
      now rewrite (ParseUint_digits " " _ _ Hp eq_refl).
  - apply (ReplaceAll_suffix "/" "tcp").
    apply (ParseUint_digits "/" _ _ Hp eq_refl).
Qed.

Lemma portLines_published err (entries : list (string * string)) :
  Forall publishedEntry entries ->
  forall pm : gmap N (list string),
  exists pm' : gmap N (list string),
    portLines err (map (fun e => publishedLine (fst e) (snd e)) entries) pm = scanDone pm' /\
    forall p, pm' !!! p = pm !!! p ++ addressesOf p entries /\
              (pm' !! p = None <-> pm !! p = None /\ addressesOf p entries = []).
Proof.
  induction 1 as [|[port address] entries [[q Hq] [[Hsp _] _]] _ IH]; intros pm.
  - exists pm. split; [reflexivity|]. intros p. cbn [addressesOf].
    rewrite app_nil_r. tauto.
  - cbn [fst snd] in *. cbn [map portLines fst snd].
    destruct (published_line_read _ _ _ Hq Hsp) as [-> Hrep].
    cbn [lookup list_lookup]. rewrite Hrep, Hq.
    destruct (IH (<[q := pm !!! q ++ [address]]> pm)) as (pm' & -> & Hpm').
    exists pm'. split; [reflexivity|]. intros p.
    destruct (Hpm' p) as [Htot Hnone]. cbn [addressesOf]. rewrite Hq.
    destruct (decide (Some q = Some p)) as [[= ->] | Hne].
    + rewrite Htot, Hnone, lookup_total_insert_eq, lookup_insert_eq, <- app_assoc.
      split; [reflexivity|]. split; intros [? ?]; discriminate.
    + assert (q <> p) by congruence.
      rewrite Htot, Hnone, lookup_total_insert_ne, lookup_insert_ne by assumption.
      split; reflexivity.
Qed.

Lemma rawLines_portOutput (entries : list (string * string)) :
  Forall publishedEntry entries ->
  bufio.rawLines (portOutput entries) =
  map (fun e => publishedLine (fst e) (snd e)) entries.
Proof.
  induction 1 as [|[port address] entries [[q Hq] [[_ [Hlf _]] _]] _ IH]; [reflexivity|].
  cbn [fst snd] in *. cbn [portOutput map fst snd].
  rewrite rawLines_line, IH; [reflexivity|].
  now apply (publishedLine_no_byte LF _ _ _ Hq).
Qed.

Lemma scanTokens_published (entries : list (string * string)) :
  Forall publishedEntry entries ->
  bufio.scanTokens (map (fun e => publishedLine (fst e) (snd e)) entries) =
  (map (fun e => publishedLine (fst e) (snd e)) entries, None).
Proof.
  induction 1 as [|[port address] entries [[q Hq] [[_ [_ Hcr]] Hlen]] _ IH]; [reflexivity|].
  cbn [fst snd] in *. cbn [map bufio.scanTokens fst snd].
  destruct (N.leb_spec bufio.MaxScanTokenSize
              (N.of_nat (String.length (publishedLine port address)))); [lia|].
  rewrite IH, dropCR_plain; [reflexivity|].
  now apply (publishedLine_no_byte CR _ _ _ Hq).
Qed.

(** The loop of [getPublishedPorts] on one published line: the port is
    parsed and the address is appended to the addresses of that port. *)
Lemma portLines_published_line err port address p rest (pm : gmap N (list string)) :
  strconv.ParseUint port = Some p ->
  gostrings.Contains address " -> " = false ->
  portLines err (publishedLine port address :: rest) pm =
  portLines err rest (<[p := pm !!! p ++ [address]]> pm).
Proof.
  intros Hp Ha. cbn [portLines].
  destruct (published_line_read _ _ _ Hp Ha) as [-> Hrep].
  cbn [lookup list_lookup]. now rewrite Hrep, Hp.
Qed.

(** C7: for every output line [<port>/tcp -> <address>] the loop of
    [getPublishedPorts] parses the internal port as an unsigned integer from
    the left-hand side of [" -> "] without its [/tcp] suffix and appends the
    right-hand side, byte for byte, to the addresses of that port; so when
    [docker port] exits zero and has printed such lines, the mapping
    returned holds for every internal port the right-hand sides of its
    lines in the order of the lines, and a port without a line is absent. *)
Theorem getPublishedPorts_published_lines ctx cid h (entries : list (string * string)) :
  let c := portCommand ctx cid in
  (forall err port address p rest (pm : gmap N (list string)),
     strconv.ParseUint port = Some p ->
     gostrings.Contains address " -> " = false ->
     portLines err (publishedLine port address :: rest) pm =
     portLines err rest (<[p := pm !!! p ++ [address]]> pm)) /\
  (runErr (exec h c) = None ->
   stdOut (exec h c) = portOutput entries ->
   Forall publishedEntry entries ->
   exists pm : gmap N (list string),
     getPublishedPorts ctx cid h = (Ret (Some pm, None), h ++ [c]) /\
     forall p, pm !!! p = addressesOf p entries /\
               (pm !! p = None <-> addressesOf p entries = [])).
Proof.
  intros c. split; [intros; now apply portLines_published_line|].
  intros Herr Hout Hwf.
  destruct (portLines_published None entries Hwf ∅) as (pm & Hpm & Hspec).
  exists pm. split.
  - unfold getPublishedPorts. rewrite bind_run. fold c.
    unfold publishedPortsOf. rewrite Herr, Hout.
    unfold bufio.Scan.
    rewrite (rawLines_portOutput _ Hwf), (scanTokens_published _ Hwf), Hpm.
    reflexivity.
  - intros p. destruct (Hspec p) as [Htot Hnone].
    rewrite Htot, Hnone, lookup_total_empty, lookup_empty. cbn.
    split; [reflexivity|].
    split; [intros [_ Ha]; exact Ha | intros Ha; split; [reflexivity | exact Ha]].
Qed.

(** ** Lines that do not parse *)

Lemma portLines_unparsable err (pre : list string) bad post :
  Forall (fun t => gostrings.Contains t " -> " = true) pre ->
  strconv.ParseUint (lhsOf bad) = None ->
  forall pm, portLines err (pre ++ bad :: post) pm = scanReturn None err.
Proof.
  intros Hpre Hbad. induction Hpre as [|t pre Ht _ IH]; intros pm.
  - cbn [app portLines]. unfold lhsOf in Hbad.
    destruct (gostrings.Split bad " -> ") as [|lhs parts] eqn:Hs.
    + now apply splitFrom_nonempty in Hs.
    + cbn [hd] in Hbad. cbn [lookup list_lookup]. now rewrite Hbad.
  - cbn [app portLines].
    destruct (Split_two t " -> " ltac:(discriminate) Ht) as (a & b & rest & ->).
    cbn [lookup list_lookup].
    destruct (strconv.ParseUint (gostrings.ReplaceAll a "/tcp" ""));
      [apply IH | reflexivity].
Qed.

Lemma discoverPorts_tick ticks ctx cid prt h :
  doneFires ctx h = false ->
  discoverPorts (S ticks) ctx cid prt h =
  match publishedPortsOf (exec h (portCommand ctx cid)) with
  | Ret (pm, Some e) => (Ret (prt, Some e), h ++ [portCommand ctx cid])
  | Ret (pm, None) =>
      if (mapLen pm =? 0)%nat
      then discoverPorts ticks ctx cid prt (h ++ [portCommand ctx cid])
      else (Ret (pm, None), h ++ [portCommand ctx cid])
  | Panic => (Panic, h ++ [portCommand ctx cid])
  | Pending => (Pending, h ++ [portCommand ctx cid])
  end.
Proof.
  intros Hd. cbn [discoverPorts]. rewrite Hd.
  unfold getPublishedPorts. unfold bind at 1. rewrite bind_run.
  destruct (publishedPortsOf _) as [[pm [e|]]| |]; try reflexivity.
  cbn. destruct (mapLen pm =? 0)%nat; reflexivity.
Qed.

(** C9: a line whose left-hand side does not parse makes the loop of
    [getPublishedPorts] return the nil mapping together with [err], which
    still holds the nil result of [cmd.Run()], not the parse error. So when
    [docker port] exits zero and such a line is reached (the lines before it
    have a left- and a right-hand side), [getPublishedPorts] returns
    [(nil, nil)], and the discovery loop of [newContainer] sees an empty
    mapping without error and goes on to the next tick instead of reporting
    the failure. *)
Theorem getPublishedPorts_parse_failure_is_silent ctx cid h pre bad post :
  let c := portCommand ctx cid in
  strconv.ParseUint (lhsOf bad) = None ->
  (forall err rest pm, portLines err (bad :: rest) pm = scanReturn None err) /\
  (runErr (exec h c) = None ->
   fst (bufio.Scan (stdOut (exec h c))) = pre ++ bad :: post ->
   Forall (fun t => gostrings.Contains t " -> " = true) pre ->
   getPublishedPorts ctx cid h = (Ret (None, None), h ++ [c]) /\
   (forall ticks prt,
      doneFires ctx h = false ->
      discoverPorts (S ticks) ctx cid prt h = discoverPorts ticks ctx cid prt (h ++ [c]))).
Proof.
  intros c Hbad. split.
  { intros err rest pm.
    exact (portLines_unparsable err [] bad rest (List.Forall_nil _) Hbad pm). }
  intros Herr Hscan Hpre.
  assert (publishedPortsOf (exec h c) = Ret (None, None)) as Hp.
  { unfold publishedPortsOf. rewrite Herr.
    destruct (bufio.Scan (stdOut (exec h c))) as [tokens scanErr].
    cbn [fst] in Hscan. subst tokens.
    now rewrite (portLines_unparsable None pre bad post Hpre Hbad). }
  split.
  - unfold getPublishedPorts. rewrite bind_run. fold c. now rewrite Hp.
  - intros ticks prt Hd. rewrite (discoverPorts_tick _ _ _ _ _ Hd). fold c.
    now rewrite Hp.
Qed.

(** ** Host ports of a handle *)

Lemma hostAddress_read host port v :
  gostrings.hasByte ":" host = false ->
  strconv.ParseUint port = Some v ->
  gostrings.Split (hostAddress host port) ":" = [host; port].
Proof.
  intros Hh Hp. unfold hostAddress.
  rewrite (Split_first ":" EmptyString host port Hh).
  now rewrite (Split_whole ":" EmptyString port (ParseUint_digits ":" _ _ Hp eq_refl)).
Qed.

Lemma exposedLoop_addresses (entries : list (string * string)) (vs : list N) :
  Forall2 (fun e v => gostrings.hasByte ":" (fst e) = false /\
                      strconv.ParseUint (snd e) = Some v) entries vs ->
  forall p,
    exposedLoop (map (fun e => hostAddress (fst e) (snd e)) entries) p =
    Ret (Some (p ++ vs), true).
Proof.
  induction 1 as [|[host port] v entries vs [Hh Hp] _ IH]; intros p.
  - cbn. now rewrite app_nil_r.
  - cbn [fst snd] in *. cbn [map exposedLoop fst snd].
    rewrite (hostAddress_read _ _ _ Hh Hp). cbn [lookup list_lookup].
    rewrite Hp, IH, <- app_assoc. reflexivity.
Qed.

(** The deferred closure always returns; with a non-nil [err] it runs
    [Stop] under a fresh five-second context. *)
Lemma cleanup_run cid (err : option error) h :
  exists more,
    cleanup cid err h =
      (Ret tt,
       match err with
       | Some _ => h ++ stopCommand (WithTimeout Background (5 * Second)) cid :: more
       | None => h
       end) /\
    Forall (fun x => cmdCtx x = WithTimeout Background (5 * Second)) more.
Proof.
  destruct err as [e|]; [|exists []; split; [reflexivity | constructor]].
  destruct (Stop_trace (WithTimeout Background (5 * Second))
              {| id := cid; portMappings := None |} h) as (r & more & Hs & Hall).
  exists more. split; [|assumption].
  unfold cleanup, bind. rewrite Hs. reflexivity.
Qed.

Lemma getLogs_run ctx cid h :
  getLogs ctx cid h =
  (Ret (logsOf cid (exec h (logsCommand ctx cid))), h ++ [logsCommand ctx cid]).
Proof. reflexivity. Qed.

(** A handle is only returned with the local [err] nil, and without port
    exposures its mapping is the empty one. *)
Lemma launched_handle ticks ctx imageName cid exposedPorts h err c e h' :
  launched ticks ctx imageName cid exposedPorts h = (Ret (err, (Some c, e)), h') ->
  err = None /\ e = None /\ id c = cid /\
  (exposedPorts = [] -> portMappings c = Some ∅).
Proof.
  unfold launched. unfold bind at 1.
  destruct (containerIsAlive ticks ctx cid h) as [[[e0|]| |] h1]; try discriminate.
  - unfold bind. rewrite getLogs_run. destruct (logsOf _ _). discriminate.
  - destruct exposedPorts as [|p ps]; cbn [length Nat.ltb Nat.leb].
    + intros [= <- <- <- <-]. auto.
    + unfold bind at 1.
      destruct (discoverPorts _ _ _ _ h1) as [[[pm [e1|]]| |] h2]; try discriminate.
      * unfold bind. rewrite getLogs_run. destruct (logsOf _ _). discriminate.
      * intros [= <- <- <- <-]. repeat split. discriminate.
Qed.

Lemma newContainer_handle ticks ctx imageName opts h c e h' :
  newContainer ticks ctx imageName opts h = (Ret (Some c, e), h') ->
  e = None /\
  (deref (ports (applyOptions opts
     {| args := None; env := None; mounts := None; ports := None |})) = [] ->
   portMappings c = Some ∅).
Proof.
  unfold newContainer. unfold bind at 1.
  destruct (startContainer _ _ _ _ _ _ h) as [[[cid [e0|]]| |] h0]; try discriminate.
  unfold bind at 1.
  destruct (launched _ _ _ _ _ h0) as [[[err [c' e']]| |] h1] eqn:Hl; try discriminate.
  unfold bind.
  destruct (cleanup_run cid err h1) as (more & -> & _).
  intros [= -> -> <-].
  apply launched_handle in Hl as (_ & He & _ & Hp). auto.
Qed.

(** What does hold of [ExposedPorts]: a port that is not in the handle's
    mapping gives [(nil, false)], in particular on every handle launched
    with no port exposure; a port whose addresses are all [<host>:<port>]
    with a host that holds no colon (an IPv4 address, a host name) and a
    decimal port gives the parsed host ports, in order, and [true]. *)
Theorem ExposedPorts_lookup (port : N) :
  (forall c, mapIndex (portMappings c) port = None ->
     ExposedPorts c port = Ret (None, false)) /\
  (forall ticks ctx imageName opts h c e h',
     deref (ports (applyOptions opts
       {| args := None; env := None; mounts := None; ports := None |})) = [] ->
     newContainer ticks ctx imageName opts h = (Ret (Some c, e), h') ->
     ExposedPorts c port = Ret (None, false)) /\
  (forall c (entries : list (string * string)) (vs : list N),
     mapIndex (portMappings c) port =
       Some (map (fun e => hostAddress (fst e) (snd e)) entries) ->
     Forall2 (fun e v => gostrings.hasByte ":" (fst e) = false /\
                         strconv.ParseUint (snd e) = Some v) entries vs ->
     ExposedPorts c port = Ret (Some vs, true)).
Proof.
  split; [|split].
  - intros c H. unfold ExposedPorts. now rewrite H.
  - intros ticks ctx imageName opts h c e h' Hp Hn.
    apply newContainer_handle in Hn as [_ Hm].
    unfold ExposedPorts. rewrite (Hm Hp). cbn [mapIndex].
    now rewrite lookup_empty.
  - intros c entries vs Hm Hall. unfold ExposedPorts. rewrite Hm.
    now rewrite (exposedLoop_addresses _ _ Hall []).
Qed.

(** ** Launch failures *)

(** The deferred closure with a non-nil [err]: [Stop] under a fresh
    five-second context, its result dropped. *)
Lemma cleanup_outcome cid (e : error) h :
  let sCtx := WithTimeout Background (5 * Second) in
  let c1 := stopCommand sCtx cid in
  let c2 := volumesCommand sCtx cid in
  let c3 := removeCommand sCtx cid in
  let r1 := exec h c1 in
  let r2 := exec (h ++ [c1]) c2 in
  let r3 := exec (h ++ [c1; c2]) c3 in
  let ids := filter (fun t => t ≠ EmptyString) (fst (bufio.Scan (stdOut r2))) in
  let c4 := Command sCtx dockerCmd ([actionVolume; "rm"] ++ ids) in
  cleanup cid (Some e) h =
    (Ret tt,
     h ++ match runErr r1 with
          | Some _ => [c1]
          | None =>
              match runErr r2, snd (bufio.Scan (stdOut r2)) with
              | None, None =>
                  match runErr r3 with
                  | Some _ => [c1; c2; c3]
                  | None =>
                      match ids with
                      | [] => [c1; c2; c3]
                      | _ :: _ => [c1; c2; c3; c4]
                      end
                  end
              | _, _ => [c1; c2]
              end
          end).
Proof.
  intros sCtx c1 c2 c3 r1 r2 r3 ids c4.
  unfold cleanup, bind. fold sCtx. rewrite Stop_outcome. cbn [id].
  fold c1 c2 c3 r1 r2 r3. fold ids. fold c4.
  destruct (runErr r1); [reflexivity|].
  destruct (runErr r2); [reflexivity|].
  destruct (snd (bufio.Scan (stdOut r2))); [reflexivity|].
  destruct (runErr r3); [reflexivity|].
  destruct ids; reflexivity.
Qed.

(** C5: once [docker run] has succeeded with identifier [cid], a failure
    of the liveness poller, or of the port discovery that follows a
    successful poll (its query failing, or the caller's context being done
    at a [select]), makes [newContainer] return the nil handle and the
    error [[<image>](<id>) <original error>\nlogs:<logs>] that wraps the
    original failure, the logs being the combined output of the
    [docker logs <id>] just run (empty when that command failed). Before it
    returns it runs [Stop] on the container and drops its result: the stop
    command, the inspection listing the volumes, the removal and, when a
    volume was listed, [docker volume rm] of all of them, cut after the
    first of these that fails. Every one of these commands runs under
    [context.WithTimeout(context.Background(), 5*time.Second)], whatever
    the caller's context is and whether or not it is done. *)
Theorem newContainer_failure_cleans_up ticks ctx imageName opts h cid h0 orig h1 :
  let cfg := applyOptions opts
               {| args := None; env := None; mounts := None; ports := None |} in
  let sCtx := WithTimeout Background (5 * Second) in
  let logs := Command ctx dockerCmd ["logs"; cid] in
  let l := match runErr (exec h1 logs) with
           | Some _ => EmptyString
           | None => combined (exec h1 logs)
           end in
  let g := h1 ++ [logs] in
  let c1 := stopCommand sCtx cid in
  let c2 := volumesCommand sCtx cid in
  let c3 := removeCommand sCtx cid in
  let r1 := exec g c1 in
  let r2 := exec (g ++ [c1]) c2 in
  let r3 := exec (g ++ [c1; c2]) c3 in
  let ids := filter (fun t => t ≠ EmptyString) (fst (bufio.Scan (stdOut r2))) in
  let c4 := Command sCtx dockerCmd ([actionVolume; "rm"] ++ ids) in
  let steps := match runErr r1 with
               | Some _ => [c1]
               | None =>
                   match runErr r2, snd (bufio.Scan (stdOut r2)) with
                   | None, None =>
                       match runErr r3 with
                       | Some _ => [c1; c2; c3]
                       | None =>
                           match ids with
                           | [] => [c1; c2; c3]
                           | _ :: _ => [c1; c2; c3; c4]
                           end
                       end
                   | _, _ => [c1; c2]
                   end
               end in
  startContainer ctx imageName (deref (args cfg)) (deref (env cfg))
    (deref (ports cfg)) (deref (mounts cfg)) h = (Ret (cid, None), h0) ->
  (containerIsAlive ticks ctx cid h0 = (Ret (Some orig), h1) \/
   (exists hm pm,
      containerIsAlive ticks ctx cid h0 = (Ret None, hm) /\
      deref (ports cfg) <> [] /\
      discoverPorts ticks ctx cid (Some ∅) hm = (Ret (pm, Some orig), h1))) ->
  exists e,
    newContainer ticks ctx imageName opts h = (Ret (None, Some e), g ++ steps) /\
    e = wrapError ("[" +:+ imageName +:+ "](" +:+ cid +:+ ") " +:+ Error orig +:+ nl +:+
                   "logs:" +:+ l) orig /\
    Error e = "[" +:+ imageName +:+ "](" +:+ cid +:+ ") " +:+ Error orig +:+ nl +:+
              "logs:" +:+ l /\
    Unwrap e = Some orig /\
    Forall (fun x => cmdCtx x = sCtx) steps /\
    c1 = Command sCtx dockerCmd [actionContainer; "stop"; cid].
Proof.
  intros cfg sCtx logs l g c1 c2 c3 r1 r2 r3 ids c4 steps Hstart Hfail.
  assert (fst (logsOf cid (exec h1 logs)) = l) as Hlogs.
  { unfold logsOf. subst l. now destruct (runErr (exec h1 logs)). }
  assert (launched ticks ctx imageName cid (deref (ports cfg)) h0 =
          (Ret (Some orig, (None, Some (launchErrorLogs imageName cid orig l))), g)) as Hl.
  { unfold launched. unfold bind at 1.
    destruct Hfail as [Ha | (hm & pm & Ha & Hports & Hd)]; rewrite Ha.
    - unfold bind. rewrite getLogs_run. fold logs. rewrite <- Hlogs.
      destruct (logsOf _ _). reflexivity.
    - destruct (deref (ports cfg)) as [|p ps]; [congruence|].
      cbn [length Nat.ltb Nat.leb]. unfold bind at 1. rewrite Hd.
      unfold bind. rewrite getLogs_run. fold logs. rewrite <- Hlogs.
      destruct (logsOf _ _). reflexivity. }
  exists (launchErrorLogs imageName cid orig l).
  split; [|split; [reflexivity|split; [reflexivity|split; [reflexivity|split]]]].
  - unfold newContainer. fold cfg. unfold bind at 1. rewrite Hstart.
    unfold bind at 1. rewrite Hl. unfold bind.
    rewrite (cleanup_outcome cid orig g). reflexivity.
  - subst steps.
    destruct (runErr r1); [repeat constructor|].
    destruct (runErr r2); [repeat constructor|].
    destruct (snd (bufio.Scan (stdOut r2))); [repeat constructor|].
    destruct (runErr r3); [repeat constructor|].
    destruct ids; repeat constructor.
  - reflexivity.
Qed.

(** ** What the pollers run *)

Lemma replicate_snoc {A} (k : nat) (x : A) : replicate k x ++ [x] = x :: replicate k x.
Proof. induction k as [|k IH]; [reflexivity | cbn; now rewrite IH]. Qed.

(** The liveness poller never panics, runs nothing but its inspection, once
    per tick, and is still polling only when the ticks are used up. *)
Lemma containerIsAlive_trace ticks ctx cid h :
  exists k,
    (k <= ticks)%nat /\
    snd (containerIsAlive ticks ctx cid h) = h ++ replicate k (inspectCommand ctx cid) /\
    fst (containerIsAlive ticks ctx cid h) <> Panic /\
    (fst (containerIsAlive ticks ctx cid h) = Pending -> k = ticks) /\
    (forall r, fst (containerIsAlive ticks ctx cid h) = Ret r -> (1 <= k)%nat).
Proof.
  revert h. induction ticks as [|ticks IH]; intros h.
  - exists 0%nat. cbn. rewrite app_nil_r. repeat split; try discriminate. lia.
  - rewrite containerIsAlive_tick.
    destruct (statusOf (exec h (inspectCommand ctx cid))).
    + destruct (IH (h ++ [inspectCommand ctx cid])) as (k & Hk & Ht & Hp & Hq & Hr).
      exists (S k). rewrite Ht, <- app_assoc. cbn [app replicate].
      repeat split; try assumption; try lia.
      intros H. now rewrite (Hq H).
    + exists 1%nat. cbn. repeat split; try discriminate; lia.
    + exists 1%nat. cbn. repeat split; try discriminate; lia.
Qed.

(** X1: the liveness poller runs only [docker inspect -f '{{.State.Status}}'
    <id>] under the context it was given, at most once per tick and at least
    once before it reports anything; it never panics. *)
Theorem containerIsAlive_only_inspects ticks ctx cid h :
  exists k,
    (k <= ticks)%nat /\
    snd (containerIsAlive ticks ctx cid h) = h ++ replicate k (inspectCommand ctx cid) /\
    fst (containerIsAlive ticks ctx cid h) <> Panic /\
    (forall r, fst (containerIsAlive ticks ctx cid h) = Ret r -> (1 <= k)%nat).
Proof.
  destruct (containerIsAlive_trace ticks ctx cid h) as (k & H1 & H2 & H3 & _ & H5).
  exists k. auto.
Qed.

(** ** What [getPublishedPorts] stores, whatever docker printed *)

Lemma Split_head (t sep : string) :
  gostrings.Split t sep !! 0%nat = Some (hd EmptyString (gostrings.Split t sep)).
Proof.
  destruct (gostrings.Split t sep) eqn:E; [|reflexivity].
  now apply splitFrom_nonempty in E.
Qed.

(** When the loop runs to the end, every port holds what it held before
    followed by the second pieces of its lines. *)
Lemma portLines_done err tokens :
  forall (pm pm' : gmap N (list string)),
    portLines err tokens pm = scanDone pm' ->
    (forall p, pm' !!! p = pm !!! p ++ piecesFor p tokens) /\
    (forall p, is_Some (pm !! p) -> is_Some (pm' !! p)) /\
    (noEmptyList pm -> noEmptyList pm') /\
    (tokens <> [] -> pm' <> ∅).
Proof.
  induction tokens as [|t tokens IH]; intros pm pm' H.
  - cbn in H. injection H as <-. split; [|split; [|split]].
    + intros p. cbn. now rewrite app_nil_r.
    + auto.
    + auto.
    + congruence.
  - cbn [portLines] in H. rewrite Split_head in H. fold (lhsOf t) in H.
    destruct (strconv.ParseUint (lhsOf t)) as [q|] eqn:Hq; [|discriminate].
    destruct (gostrings.Split t " -> " !! 1%nat) as [rhs|] eqn:Hr; [|discriminate].
    destruct (IH _ _ H) as (Htot & Hkeep & Hne & _).
    split; [|split; [|split]].
    + intros p. rewrite Htot. cbn [piecesFor]. rewrite Hq, Hr.
      destruct (decide (Some q = Some p)) as [[= ->]|Hn].
      * now rewrite lookup_total_insert_eq, <- app_assoc.
      * rewrite lookup_total_insert_ne by congruence. reflexivity.
    + intros p Hp. apply Hkeep.
      destruct (decide (q = p)) as [->|Hn].
      * rewrite lookup_insert_eq. eauto.
      * now rewrite lookup_insert_ne.
    + intros Hpm. apply Hne. intros p l.
      destruct (decide (q = p)) as [->|Hn].
      * rewrite lookup_insert_eq. intros [= <-]. now destruct (pm !!! p).
      * rewrite lookup_insert_ne by assumption. apply Hpm.
    + intros _ ->.
      destruct (Hkeep q) as [l Hl]; [rewrite lookup_insert_eq; eauto|].
      now rewrite lookup_empty in Hl.
Qed.

(** The loop only ever returns early with the nil mapping and the error it
    was entered with. *)
Lemma portLines_return err tokens :
  forall (pm : gmap N (list string)) m e,
    portLines err tokens pm = scanReturn m e -> m = None /\ e = err.
Proof.
  induction tokens as [|t tokens IH]; intros pm m e H; [discriminate|].
  cbn [portLines] in H.
  destruct (gostrings.Split t " -> " !! 0%nat); [|discriminate].
  destruct (strconv.ParseUint _); [|injection H as <- <-; auto].
  destruct (gostrings.Split t " -> " !! 1%nat); [|discriminate].
  apply (IH _ _ _ H).
Qed.

Lemma publishedPortsOf_mapping r (pm : gmap N (list string)) e :
  publishedPortsOf r = Ret (Some pm, e) ->
  e = None /\ runErr r = None /\
  (forall p, pm !!! p = piecesFor p (fst (bufio.Scan (stdOut r)))) /\
  noEmptyList pm /\
  (mapLen (Some pm) = 0%nat <-> fst (bufio.Scan (stdOut r)) = []).
Proof.
  unfold publishedPortsOf. destruct (runErr r); [discriminate|].
  destruct (bufio.Scan (stdOut r)) as [tokens scanErr]. cbn [fst].
  destruct (portLines None tokens ∅) as [pm0| |] eqn:Hl; try discriminate.
  - destruct scanErr; [discriminate|]. intros [= -> <-].
    destruct (portLines_done _ _ _ _ Hl) as (Htot & _ & Hne & Hnonempty).
    repeat split.
    + intros p. rewrite Htot, lookup_total_empty. reflexivity.
    + apply Hne. intros p l. now rewrite lookup_empty.
    + cbn [mapLen]. intros Hs. apply map_size_empty_inv in Hs.
      destruct tokens; [reflexivity|]. now destruct Hnonempty.
    + intros ->. cbn in Hl. injection Hl as <-. reflexivity.
  - destruct (portLines_return _ _ _ _ _ Hl) as [-> _]. discriminate.
Qed.

(** X2: whatever [docker port] printed, a mapping that [getPublishedPorts]
    returns comes with the nil error and holds, for every port, exactly the
    second [" -> "]-pieces of the scanned lines whose left-hand side reads
    as that port, in line order; so no port is stored with an empty address
    list, and the mapping is empty only when no line was scanned. *)
Theorem getPublishedPorts_mapping_is_exact ctx cid h (pm : gmap N (list string)) e h' :
  getPublishedPorts ctx cid h = (Ret (Some pm, e), h') ->
  let r := exec h (portCommand ctx cid) in
  h' = h ++ [portCommand ctx cid] /\
  e = None /\ runErr r = None /\
  (forall p, pm !!! p = piecesFor p (fst (bufio.Scan (stdOut r)))) /\
  noEmptyList pm /\
  (mapLen (Some pm) = 0%nat <-> fst (bufio.Scan (stdOut r)) = []).
Proof.
  unfold getPublishedPorts. rewrite bind_run. intros [= Hp <-].
  split; [reflexivity|]. now apply publishedPortsOf_mapping.
Qed.

(** ** The discovery loop *)

(** How the discovery loop can end. *)
Lemma discoverPorts_outcome ticks ctx cid prt :
  forall h pm e h',
    discoverPorts ticks ctx cid prt h = (Ret (pm, e), h') ->
    exists k,
      (k <= ticks)%nat /\
      h' = h ++ replicate k (portCommand ctx cid) /\
      match e with
      | Some err =>
          pm = prt /\
          ((doneFires ctx h' = true /\ err = ctxErr ctx) \/
           (exists k0, k = S k0 /\
              publishedPortsOf (exec (h ++ replicate k0 (portCommand ctx cid))
                                  (portCommand ctx cid)) = Ret (None, Some err)))
      | None =>
          exists k0 m,
            k = S k0 /\ pm = Some m /\ (0 < size m)%nat /\
            publishedPortsOf (exec (h ++ replicate k0 (portCommand ctx cid))
                                (portCommand ctx cid)) = Ret (Some m, None)
      end.
Proof.
  induction ticks as [|ticks IH]; intros h pm e h' H; [discriminate|].
  destruct (doneFires ctx h) eqn:Hd.
  - cbn [discoverPorts] in H. rewrite Hd in H. injection H as <- <- <-.
    exists 0%nat. cbn. rewrite app_nil_r. repeat split; [lia|]. left. auto.
  - rewrite (discoverPorts_tick _ _ _ _ _ Hd) in H.
    destruct (publishedPortsOf (exec h (portCommand ctx cid)))
      as [[m [err|]]| |] eqn:Hp; try discriminate.
    + injection H as <- <- <-. exists 1%nat. cbn.
      repeat split; [lia|]. right. exists 0%nat. cbn. rewrite app_nil_r.
      destruct m as [m|]; [|auto].
      now destruct (publishedPortsOf_mapping _ _ _ Hp).
    + destruct (mapLen m =? 0)%nat eqn:Hz.
      * destruct (IH _ _ _ _ H) as (k & Hk & -> & Hrest).
        exists (S k). rewrite <- app_assoc. cbn [app replicate].
        split; [lia|]. split; [reflexivity|].
        destruct e as [err|].
        -- destruct Hrest as [-> [Hdone | (k0 & -> & Hq)]].
           ++ split; [reflexivity|]. left.
              now rewrite <- app_assoc in Hdone.
           ++ split; [reflexivity|]. right. exists (S k0).
              split; [reflexivity|].
              now rewrite <- app_assoc in Hq.
        -- destruct Hrest as (k0 & m0 & -> & -> & Hs & Hq).
           exists (S k0), m0. repeat split; try assumption.
           now rewrite <- app_assoc in Hq.
      * injection H as <- <- <-. exists 1%nat. cbn.
        split; [lia|]. split; [reflexivity|].
        destruct m as [m|]; [|discriminate].
        exists 0%nat, m. cbn. rewrite app_nil_r.
        repeat split; [|assumption].
        cbn [mapLen] in Hz. apply Nat.eqb_neq in Hz. lia.
Qed.

(** X3: the discovery loop runs nothing but [docker port <id>], at most once
    per tick. It ends without error only on a query that exited zero and
    gave a non-empty mapping, which it returns; it ends with an error either
    because the caller's context was done at a [select] (the context's error)
    or because the last query failed, and then the mapping it was started
    with is left as it was. *)
Theorem discoverPorts_ends ticks ctx cid prt h pm e h' :
  discoverPorts ticks ctx cid prt h = (Ret (pm, e), h') ->
  exists k,
    (k <= ticks)%nat /\
    h' = h ++ replicate k (portCommand ctx cid) /\
    match e with
    | Some err =>
        pm = prt /\
        ((doneFires ctx h' = true /\ err = ctxErr ctx) \/
         (exists k0, k = S k0 /\
            publishedPortsOf (exec (h ++ replicate k0 (portCommand ctx cid))
                                (portCommand ctx cid)) = Ret (None, Some err)))
    | None =>
        exists k0 m,
          k = S k0 /\ pm = Some m /\ (0 < size m)%nat /\
          publishedPortsOf (exec (h ++ replicate k0 (portCommand ctx cid))
                              (portCommand ctx cid)) = Ret (Some m, None)
    end.
Proof. apply discoverPorts_outcome. Qed.

(** ** The launch, seen from its result *)

Lemma containerIsAlive_ret ticks ctx cid h r h' :
  containerIsAlive ticks ctx cid h = (Ret r, h') ->
  exists k, (1 <= k <= ticks)%nat /\ h' = h ++ replicate k (inspectCommand ctx cid).
Proof.
  intros H.
  destruct (containerIsAlive_trace ticks ctx cid h) as (k & Hk & Ht & _ & _ & Hr).
  rewrite H in Ht, Hr. cbn [fst snd] in Ht, Hr.
  exists k. split; [|assumption]. split; [|assumption]. now apply (Hr r).
Qed.

(** An identifier comes out of [startContainer] only as the first 12 bytes
    of what a successful [docker run] printed. *)
Lemma startContainer_ok ctx imageName arguments envVars exposedPorts mnts h cid e h0 :
  startContainer ctx imageName arguments envVars exposedPorts mnts h = (Ret (cid, e), h0) ->
  let c := Command ctx dockerCmd (startArgs imageName arguments envVars exposedPorts mnts) in
  h0 = h ++ [c] /\
  match e with
  | None =>
      runErr (exec h c) = None /\
      exists rest, stdOut (exec h c) = cid +:+ rest /\ String.length cid = 12%nat
  | Some _ => runErr (exec h c) <> None /\ cid = EmptyString
  end.
Proof.
  intros H c. unfold startContainer in H. rewrite bind_run in H. fold c in H.
  destruct (runErr (exec h c)) as [e0|] eqn:He.
  - injection H as <- <- <-. split; [reflexivity|]. split; [discriminate | reflexivity].
  - unfold idLength in H.
    destruct (Nat.leb_spec 12 (String.length (stdOut (exec h c)))) as [Hl|Hl];
      [|discriminate].
    injection H as <- <- <-. split; [reflexivity|]. split; [reflexivity|].
    destruct (substring_prefix 12 _ Hl) as (rest & Hs & Hn). eauto.
Qed.

Lemma launched_success ticks ctx imageName cid exposedPorts h err c e h' :
  launched ticks ctx imageName cid exposedPorts h = (Ret (err, (Some c, e)), h') ->
  exists k j m,
    (1 <= k)%nat /\
    h' = h ++ replicate k (inspectCommand ctx cid) ++ replicate j (portCommand ctx cid) /\
    id c = cid /\ portMappings c = Some m /\ noEmptyList m /\
    (exposedPorts = [] -> j = 0%nat /\ m = ∅) /\
    (exposedPorts <> [] -> (1 <= j)%nat /\ (0 < size m)%nat).
Proof.
  unfold launched. unfold bind at 1.
  destruct (containerIsAlive ticks ctx cid h) as [[[e0|]| |] h1] eqn:Ha; try discriminate.
  { unfold bind. rewrite getLogs_run. destruct (logsOf _ _). discriminate. }
  destruct (containerIsAlive_ret _ _ _ _ _ _ Ha) as (k & [Hk _] & ->).
  destruct exposedPorts as [|p ps]; cbn [length Nat.ltb Nat.leb].
  - intros [= <- <- <- <-]. exists k, 0%nat, ∅. cbn [replicate].
    rewrite app_nil_r. repeat split; try assumption; try congruence.
    intros q l. now rewrite lookup_empty.
  - unfold bind at 1.
    destruct (discoverPorts _ _ _ _ _) as [[[pm [e1|]]| |] h2] eqn:Hd; try discriminate.
    { unfold bind. rewrite getLogs_run. destruct (logsOf _ _). discriminate. }
    intros [= <- <- <- <-].
    destruct (discoverPorts_outcome _ _ _ _ _ _ _ _ Hd)
      as (j & _ & -> & k0 & m & -> & -> & Hs & Hp).
    exists k, (S k0), m. rewrite <- app_assoc.
    repeat split; try assumption; try discriminate; try lia.
    now destruct (publishedPortsOf_mapping _ _ _ Hp) as (_ & _ & _ & Hne & _).
Qed.

Lemma newContainer_success ticks ctx imageName opts h c e h' :
  newContainer ticks ctx imageName opts h = (Ret (Some c, e), h') ->
  let cfg := applyOptions opts
               {| args := None; env := None; mounts := None; ports := None |} in
  let runCmd := Command ctx dockerCmd
                  (startArgs imageName (deref (args cfg)) (deref (env cfg))
                     (deref (ports cfg)) (deref (mounts cfg))) in
  e = None /\
  runErr (exec h runCmd) = None /\
  (exists rest, stdOut (exec h runCmd) = id c +:+ rest /\ String.length (id c) = 12%nat) /\
  exists k j m,
    (1 <= k)%nat /\
    h' = h ++ [runCmd] ++ replicate k (inspectCommand ctx (id c))
           ++ replicate j (portCommand ctx (id c)) /\
    portMappings c = Some m /\ noEmptyList m /\
    (deref (ports cfg) = [] -> j = 0%nat /\ m = ∅) /\
    (deref (ports cfg) <> [] -> (1 <= j)%nat /\ (0 < size m)%nat).
Proof.
  intros H cfg runCmd. unfold newContainer in H. fold cfg in H.
  unfold bind at 1 in H.
  destruct (startContainer _ _ _ _ _ _ h) as [[[cid [e0|]]| |] h0] eqn:Hs; try discriminate.
  destruct (startContainer_ok _ _ _ _ _ _ _ _ _ _ Hs) as (-> & Herr & Hid).
  fold runCmd in Herr, Hid.
  unfold bind at 1 in H.
  destruct (launched _ _ _ _ _ _) as [[[err [c' e']]| |] h1] eqn:Hl; try discriminate.
  unfold bind in H.
  destruct (cleanup_run cid err h1) as (more & Hc & _). rewrite Hc in H.
  injection H as -> -> <-.
  destruct (launched_handle _ _ _ _ _ _ _ _ _ _ Hl) as (-> & -> & _ & _).
  destruct (launched_success _ _ _ _ _ _ _ _ _ _ Hl)
    as (k & j & m & Hk & -> & <- & Hm & Hne & H0 & H1).
  split; [reflexivity|]. split; [assumption|]. split; [assumption|].
  exists k, j, m. rewrite <- !app_assoc. repeat split; try assumption.
  - now apply H0.
  - now apply H0.
  - now apply H1.
  - now apply H1.
Qed.

(** X4: when [newContainer] returns a handle, the error is nil, the handle's
    id is the first 12 bytes that the successful [docker run] printed, and
    the commands run were exactly: the [docker run], then one or more status
    inspections, then the port queries (none without port exposures, one or
    more with them), all under the caller's context; no logs were fetched
    and nothing was stopped or removed. The handle's mapping is the empty one
    without port exposures and a non-empty one with them. *)
Theorem newContainer_success_path ticks ctx imageName opts h c e h' :
  newContainer ticks ctx imageName opts h = (Ret (Some c, e), h') ->
  let cfg := applyOptions opts
               {| args := None; env := None; mounts := None; ports := None |} in
  let runCmd := Command ctx dockerCmd
                  (startArgs imageName (deref (args cfg)) (deref (env cfg))
                     (deref (ports cfg)) (deref (mounts cfg))) in
  e = None /\
  runErr (exec h runCmd) = None /\
  (exists rest, stdOut (exec h runCmd) = id c +:+ rest /\ String.length (id c) = 12%nat) /\
  exists k j m,
    (1 <= k)%nat /\
    h' = h ++ [runCmd] ++ replicate k (inspectCommand ctx (id c))
           ++ replicate j (portCommand ctx (id c)) /\
    portMappings c = Some m /\
    (deref (ports cfg) = [] -> j = 0%nat /\ m = ∅) /\
    (deref (ports cfg) <> [] -> (1 <= j)%nat /\ (0 < size m)%nat).
Proof.
  intros H cfg runCmd.
  destruct (newContainer_success _ _ _ _ _ _ _ _ H)
    as (He & Hr & Hid & k & j & m & Hk & Ht & Hm & _ & H0 & H1).
  repeat (split; [assumption|]). exists k, j, m. auto.
Qed.

(** X5: on a handle that [newContainer] returned, [ExposedPortAddresses]
    never answers [true] with an empty list: a port is in the mapping only
    with at least one address. *)
Theorem launched_handle_addresses_nonempty ticks ctx imageName opts h c e h' port l :
  newContainer ticks ctx imageName opts h = (Ret (Some c, e), h') ->
  ExposedPortAddresses c port = (Some l, true) ->
  l <> [].
Proof.
  intros H Ha.
  destruct (newContainer_success _ _ _ _ _ _ _ _ H)
    as (_ & _ & _ & k & j & m & _ & _ & Hm & Hne & _).
  unfold ExposedPortAddresses in Ha. rewrite Hm in Ha. cbn [mapIndex] in Ha.
  destruct (m !! port) as [l0|] eqn:Hl; [|discriminate].
  injection Ha as <-. exact (Hne _ _ Hl).
Qed.

(** X6: when [docker run] itself fails, [newContainer] returns no handle and
    the error of [startContainer] wrapped with the image name and an empty
    id; the [docker run] is the only command run: no inspection, no logs,
    no clean-up. *)
Theorem newContainer_start_failure ticks ctx imageName opts h :
  let cfg := applyOptions opts
               {| args := None; env := None; mounts := None; ports := None |} in
  let runCmd := Command ctx dockerCmd
                  (startArgs imageName (deref (args cfg)) (deref (env cfg))
                     (deref (ports cfg)) (deref (mounts cfg))) in
  runErr (exec h runCmd) <> None ->
  exists e,
    newContainer ticks ctx imageName opts h = (Ret (None, Some e), h ++ [runCmd]) /\
    Error e = "[" +:+ imageName +:+ "]() unable to start container:" +:+ nl +:+
              stdOut (exec h runCmd) +:+ nl +:+ stdErr (exec h runCmd) +:+ nl +:+
              "args: " +:+ Quote (gostrings.Join (cmdArgs runCmd) " ") /\
    Unwrap e = Some (errorString ("unable to start container:" +:+ nl +:+
              stdOut (exec h runCmd) +:+ nl +:+ stdErr (exec h runCmd) +:+ nl +:+
              "args: " +:+ Quote (gostrings.Join (cmdArgs runCmd) " "))).
Proof.
  intros cfg runCmd Herr.
  unfold newContainer. fold cfg. unfold bind, startContainer. rewrite bind_run.
  fold runCmd. destruct (runErr (exec h runCmd)) as [e0|]; [|congruence].
  eexists. split; [reflexivity|]. split; reflexivity.
Qed.

(** ** The wait loop, seen from its result *)

(** An adapter either runs the probe and hands back what it shows, or (on
    the host, with an empty command) panics before running anything. *)
Lemma adapter_run ctx c cmd (inCtr : bool) h :
  (if inCtr then dockerExecute ctx (id c) cmd else hostExecute ctx cmd) h =
    (Ret (adapterResult (exec h (probeCommand ctx c cmd inCtr))),
     h ++ [probeCommand ctx c cmd inCtr]) \/
  (inCtr = false /\ cmd = [] /\
   (if inCtr then dockerExecute ctx (id c) cmd else hostExecute ctx cmd) h = (Panic, h)).
Proof.
  destruct inCtr; [left; reflexivity|].
  destruct cmd as [|name rest]; [right; auto | left; reflexivity].
Qed.

Lemma waitDecide_cases met r :
  match waitDecide met (adapterResult r) with
  | waitFail e =>
      exists e0, runErr r = Some e0 /\ exitCode r = (-1)%Z /\ Unwrap e = Some e0
  | waitMet => metOn met r = true
  | waitAgain => metOn met r = false
  end.
Proof.
  unfold waitDecide, adapterResult, metOn.
  destruct (runErr r) as [e0|].
  - destruct (Z.eqb_spec (exitCode r) (-1)); [eauto|].
    destruct (met _ _ _); reflexivity.
  - destruct (met _ _ _); reflexivity.
Qed.

Lemma waitLoop_outcome ticks ctx c cmd met (inCtr : bool) :
  let probe := probeCommand ctx c cmd inCtr in
  forall h r h',
    waitLoop ticks ctx c cmd met inCtr h = (Ret r, h') ->
    exists k,
      (k <= ticks)%nat /\
      h' = h ++ replicate k probe /\
      (forall i, (S i < k)%nat -> metOn met (exec (h ++ replicate i probe) probe) = false) /\
      match r with
      | None =>
          exists k0, k = S k0 /\ metOn met (exec (h ++ replicate k0 probe) probe) = true
      | Some e =>
          (doneFires ctx h' = true /\ e = ctxErr ctx /\
           forall i, (i < k)%nat -> metOn met (exec (h ++ replicate i probe) probe) = false)
          \/
          (exists k0 e0,
             k = S k0 /\
             runErr (exec (h ++ replicate k0 probe) probe) = Some e0 /\
             exitCode (exec (h ++ replicate k0 probe) probe) = (-1)%Z /\
             Unwrap e = Some e0)
      end.
Proof.
  intros probe. induction ticks as [|ticks IH]; intros h r h' H; [discriminate|].
  cbn [waitLoop] in H. destruct (doneFires ctx h) eqn:Hd.
  - injection H as <- <-. exists 0%nat. cbn. rewrite app_nil_r.
    split; [lia|]. split; [reflexivity|]. split; [intros; lia|].
    left. repeat split; [assumption|]. intros; lia.
  - unfold bind at 1 in H.
    destruct (adapter_run ctx c cmd inCtr h) as [Ha | (_ & _ & Ha)];
      rewrite Ha in H; [|discriminate].
    fold probe in H.
    pose proof (waitDecide_cases met (exec h probe)) as Hw.
    destruct (waitDecide met (adapterResult (exec h probe))) as [e| |].
    + injection H as <- <-. destruct Hw as (e0 & H1 & H2 & H3).
      exists 1%nat. cbn. split; [lia|]. split; [reflexivity|].
      split; [intros; lia|]. right. exists 0%nat, e0. cbn. rewrite app_nil_r. auto.
    + injection H as <- <-. exists 1%nat. cbn. split; [lia|]. split; [reflexivity|].
      split; [intros; lia|]. exists 0%nat. cbn. rewrite app_nil_r. auto.
    + destruct (IH _ _ _ H) as (k & Hk & -> & Hfalse & Hr).
      assert (forall i, h ++ replicate (S i) probe = (h ++ [probe]) ++ replicate i probe)
        as Hshift by (intros i; now rewrite <- app_assoc).
      exists (S k). split; [lia|]. split; [symmetry; apply Hshift|]. split.
      * intros [|i] Hi; [cbn; now rewrite app_nil_r|].
        rewrite Hshift. apply Hfalse. lia.
      * destruct r as [e|].
        -- destruct Hr as [(H1 & H2 & H3) | (k0 & e0 & -> & H1 & H2 & H3)].
           ++ left. repeat split; try assumption.
              intros [|i] Hi; [cbn; now rewrite app_nil_r|].
              rewrite Hshift. apply H3. lia.
           ++ right. exists (S k0), e0. rewrite Hshift. auto.
        -- destruct Hr as (k0 & -> & H1). exists (S k0). now rewrite Hshift.
Qed.

(** X7: however [WaitCmd] ends, it has run the one probe command (the
    command itself on the host, [docker exec <id> cmd...] in the container)
    once per tick and nothing else. It returns nil only when the predicate
    held on the last probe, having failed on every probe before; it returns
    the context's error only when the context was done at a [select] and
    the predicate had failed on every probe so far; any other error wraps
    the error of a last probe that did not start (exit code -1). *)
Theorem WaitCmd_ends ticks ctx c cmd met opts h r h' :
  WaitCmd ticks ctx c cmd met opts h = (Ret r, h') ->
  let inCtr := match inContainer (applyOptions opts {| inContainer := None |}) with
               | Some b => b
               | None => false
               end in
  let probe := probeCommand ctx c cmd inCtr in
  exists k,
    (k <= ticks)%nat /\
    h' = h ++ replicate k probe /\
    (forall i, (S i < k)%nat -> metOn met (exec (h ++ replicate i probe) probe) = false) /\
    match r with
    | None =>
        exists k0, k = S k0 /\ metOn met (exec (h ++ replicate k0 probe) probe) = true
    | Some e =>
        (doneFires ctx h' = true /\ e = ctxErr ctx /\
         forall i, (i < k)%nat -> metOn met (exec (h ++ replicate i probe) probe) = false)
        \/
        (exists k0 e0,
           k = S k0 /\
           runErr (exec (h ++ replicate k0 probe) probe) = Some e0 /\
           exitCode (exec (h ++ replicate k0 probe) probe) = (-1)%Z /\
           Unwrap e = Some e0)
    end.
Proof. intros H inCtr probe. exact (waitLoop_outcome _ _ _ _ _ _ _ _ _ H). Qed.

(** X8: with a predicate that is never true, [WaitCmd] never returns nil:
    it ends with an error or is still polling. *)
Theorem WaitCmd_false_predicate_never_succeeds ticks ctx c cmd met opts h :
  (forall out err code, met out err code = false) ->
  fst (WaitCmd ticks ctx c cmd met opts h) <> Ret None.
Proof.
  intros Hmet H.
  destruct (WaitCmd ticks ctx c cmd met opts h) as [o h'] eqn:E.
  cbn [fst] in H. subst o.
  destruct (waitLoop_outcome _ _ _ _ _ _ _ _ _ E) as (k & _ & _ & _ & k0 & _ & Ht).
  unfold metOn in Ht. now rewrite Hmet in Ht.
Qed.

(** X9: an empty probe command run on the host makes the first tick panic
    on [command[0]], before any command is run; inside the container the
    same empty command is run as [docker exec <id>]. *)
Theorem WaitCmd_empty_host_command_panics ticks ctx c met h :
  doneFires ctx h = false ->
  WaitCmd (S ticks) ctx c [] met [] h = (Panic, h) /\
  snd (WaitCmd 1 ctx c [] met [WithExecuteInsideContainer true] h) =
    h ++ [Command ctx dockerCmd [actionExec; id c]].
Proof.
  intros Hd. unfold WaitCmd. cbn [applyOptions fold_left inContainer
    WithExecuteInsideContainer waitLoop]. rewrite Hd. split; [reflexivity|].
  unfold bind, dockerExecute. rewrite bind_run. cbn [ret app].
  destruct (waitDecide _ _); reflexivity.
Qed.

(** X10: of several [WithExecuteInsideContainer] options the last one
    decides, and without any the probe runs on the host. *)
Theorem WaitCmd_last_option_decides ticks ctx c cmd met (bs : list bool) h :
  WaitCmd ticks ctx c cmd met (map WithExecuteInsideContainer bs) h =
  waitLoop ticks ctx c cmd met (default false (last bs)) h.
Proof.
  unfold WaitCmd. f_equal.
  assert (forall cfg, inContainer (applyOptions (map WithExecuteInsideContainer bs) cfg) =
                      match last bs with Some b => Some b | None => inContainer cfg end) as Hl.
  { induction bs as [|b bs IH]; intros cfg; [reflexivity|].
    cbn [map applyOptions fold_left]. unfold applyOptions in IH. rewrite IH.
    destruct bs as [|b' bs]; [reflexivity|].
    change (last (b :: b' :: bs)) with (last (b' :: bs)).
    destruct (last (b' :: bs)) eqn:E; [reflexivity|].
    now apply last_None in E. }
  rewrite Hl. cbn [inContainer]. now destruct (last bs).
Qed.

(** ** Volumes *)

Lemma rawLines_no_LF (s : string) :
  Forall (fun l => gostrings.hasByte LF l = false) (bufio.rawLines s).
Proof.
  induction s as [|x s IH]; [constructor|].
  cbn [bufio.rawLines]. destruct (Ascii.eqb_spec x LF) as [->|Hx].
  - constructor; [reflexivity | assumption].
  - destruct (bufio.rawLines s) as [|l ls].
    + repeat constructor. cbn. apply Ascii.eqb_neq in Hx. now rewrite Hx.
    + inversion IH as [|? ? Hl Hls]; subst. constructor; [|assumption].
      cbn. apply Ascii.eqb_neq in Hx. now rewrite Hx.
Qed.

Lemma hasByte_dropCR c (s : string) :
  gostrings.hasByte c s = false -> gostrings.hasByte c (bufio.dropCR s) = false.
Proof.
  induction s as [|x s IH]; intros H; [reflexivity|].
  apply hasByte_head in H as [Hx Hs]. cbn [bufio.dropCR].
  destruct s as [|y s].
  - destruct (Ascii.eqb x CR); [reflexivity|].
    cbn. apply Ascii.eqb_neq in Hx. now rewrite Hx.
  - cbn [gostrings.hasByte]. rewrite (IH Hs).
    apply Ascii.eqb_neq in Hx. now rewrite Hx.
Qed.

Lemma scanTokens_no_LF (ls : list string) :
  Forall (fun l => gostrings.hasByte LF l = false) ls ->
  Forall (fun l => gostrings.hasByte LF l = false) (fst (bufio.scanTokens ls)).
Proof.
  induction 1 as [|l ls Hl _ IH]; [constructor|].
  cbn [bufio.scanTokens].
  destruct (bufio.MaxScanTokenSize <=? _); [constructor|].
  destruct (bufio.scanTokens ls) as [ts e]. cbn [fst] in *.
  constructor; [now apply hasByte_dropCR | assumption].
Qed.

Lemma rawLines_volumesOutput (names : list string) :
  Forall volumeName names -> bufio.rawLines (volumesOutput names) = names.
Proof.
  induction 1 as [|n names (_ & Hlf & _) _ IH]; [reflexivity|].
  cbn [volumesOutput]. now rewrite rawLines_line, IH.
Qed.

Lemma scanTokens_volumes (names : list string) :
  Forall volumeName names -> bufio.scanTokens names = (names, None).
Proof.
  induction 1 as [|n names (_ & _ & Hcr & Hlen) _ IH]; [reflexivity|].
  cbn [bufio.scanTokens].
  destruct (N.leb_spec bufio.MaxScanTokenSize (N.of_nat (String.length n))); [lia|].
  now rewrite IH, dropCR_plain.
Qed.

Lemma filter_volumes (names : list string) :
  Forall volumeName names -> filter (fun t => t <> EmptyString) names = names.
Proof.
  induction 1 as [|n names (Hne & _) _ IH]; [reflexivity|].
  rewrite filter_cons_True by assumption. now rewrite IH.
Qed.

Lemma volumesOf_names c r (names : list string) :
  runErr r = None ->
  stdOut r = volumesOutput names ->
  Forall volumeName names ->
  volumesOf c r = (names, None).
Proof.
  intros Herr Hout Hn. unfold volumesOf, bufio.Scan.
  rewrite Herr, Hout, (rawLines_volumesOutput _ Hn), (scanTokens_volumes _ Hn).
  now rewrite (filter_volumes _ Hn).
Qed.

Lemma volumesOf_clean c r :
  Forall (fun v => v <> EmptyString /\ gostrings.hasByte LF v = false) (fst (volumesOf c r)) /\
  (snd (volumesOf c r) <> None -> fst (volumesOf c r) = []).
Proof.
  unfold volumesOf. destruct (runErr r); [split; [constructor | reflexivity]|].
  unfold bufio.Scan.
  pose proof (scanTokens_no_LF _ (rawLines_no_LF (stdOut r))) as Hlf.
  destruct (bufio.scanTokens (bufio.rawLines (stdOut r))) as [tokens [e|]];
    [split; [constructor | reflexivity]|].
  cbn [fst snd] in *. split; [|congruence].
  apply Forall_forall. intros v Hv. apply list_elem_of_filter in Hv as [Hne Hin].
  split; [assumption|]. rewrite Forall_forall in Hlf. now apply Hlf.
Qed.

(** X11: the names [getVolumes] returns are never empty and never hold a line
    feed, whatever the inspection printed; with an error it returns the nil
    list; it runs the one inspection. *)
Theorem getVolumes_names_are_clean ctx cid h :
  let r := getVolumes ctx cid h in
  exists ids e,
    r = (Ret (ids, e), h ++ [volumesCommand ctx cid]) /\
    Forall (fun v => v <> EmptyString /\ gostrings.hasByte LF v = false) ids /\
    (e <> None -> ids = []).
Proof.
  cbv zeta. unfold getVolumes. rewrite bind_run. cbn [ret].
  destruct (volumesOf_clean (volumesCommand ctx cid)
              (exec h (volumesCommand ctx cid))) as [H1 H2].
  destruct (volumesOf _ _) as [ids e]. eauto.
Qed.

(** X12: round trip of the volume listing: when the inspection exits zero
    having printed one volume name per line, [getVolumes] returns exactly
    these names in order, and no error. *)
Theorem getVolumes_reads_names ctx cid h (names : list string) :
  runErr (exec h (volumesCommand ctx cid)) = None ->
  stdOut (exec h (volumesCommand ctx cid)) = volumesOutput names ->
  Forall volumeName names ->
  getVolumes ctx cid h = (Ret (names, None), h ++ [volumesCommand ctx cid]).
Proof.
  intros Herr Hout Hn. unfold getVolumes. rewrite bind_run. cbn [ret].
  now rewrite (volumesOf_names _ _ _ Herr Hout Hn).
Qed.

(** X13: teardown of a container with volumes: when the stop, the inspection
    (printing the names of one or more volumes) and the removal succeed,
    [Stop] runs exactly [stop], the inspection, [remove] and one
    [docker volume rm] naming these volumes in order, and returns what that
    last command gives. *)
Theorem Stop_removes_listed_volumes ctx c h (names : list string) :
  let c1 := stopCommand ctx (id c) in
  let c2 := volumesCommand ctx (id c) in
  let c3 := removeCommand ctx (id c) in
  let c4 := Command ctx dockerCmd (["volume"; "rm"] ++ names) in
  runErr (exec h c1) = None ->
  runErr (exec (h ++ [c1]) c2) = None ->
  stdOut (exec (h ++ [c1]) c2) = volumesOutput names ->
  Forall volumeName names ->
  names <> [] ->
  runErr (exec (h ++ [c1; c2]) c3) = None ->
  Stop ctx c h =
    (Ret (match runErr (exec (h ++ [c1; c2; c3]) c4) with
          | Some _ =>
              Some (errorString ("unable to inspect container: " +:+
                                 stdErr (exec (h ++ [c1; c2; c3]) c4)))
          | None => None
          end),
     h ++ [c1; c2; c3; c4]).
Proof.
  intros c1 c2 c3 c4 H1 H2 Hout Hn Hne H3.
  rewrite Stop_run. fold c1 c2 c3. rewrite H1.
  rewrite (volumesOf_names c2 _ _ H2 Hout Hn). cbn [fst snd]. rewrite H3.
  destruct names as [|n names]; [congruence|]. reflexivity.
Qed.

(** ** Host ports, in general *)

Lemma exposedLoop_true (strs : list string) :
  forall p vs,
    exposedLoop strs p = Ret (Some vs, true) <->
    exists ws, vs = p ++ ws /\ Forall2 (fun s v => hostPortOf s = Some v) strs ws.
Proof.
  induction strs as [|s strs IH]; intros p vs.
  - cbn. split.
    + intros [= <-]. exists []. rewrite app_nil_r. split; [reflexivity | constructor].
    + intros (ws & -> & Hf). inversion Hf. now rewrite app_nil_r.
  - cbn [exposedLoop]. unfold hostPortOf at 1.
    destruct (gostrings.Split s ":" !! 1%nat) as [part|] eqn:Hs.
    + destruct (strconv.ParseUint part) as [v|] eqn:Hp.
      * rewrite IH. split.
        -- intros (ws & -> & Hf). exists (v :: ws). rewrite <- app_assoc.
           split; [reflexivity|]. constructor; [|assumption].
           unfold hostPortOf. now rewrite Hs.
        -- intros (ws & -> & Hf). inversion Hf as [|? v' ? ws' Hv Hrest]; subst.
           unfold hostPortOf in Hv. rewrite Hs, Hp in Hv. injection Hv as <-.
           exists ws'. now rewrite <- app_assoc.
      * split; [discriminate|].
        intros (ws & _ & Hf). inversion Hf as [|? v' ? ws' Hv Hrest]; subst.
        unfold hostPortOf in Hv. rewrite Hs, Hp in Hv. discriminate.
    + split; [discriminate|].
      intros (ws & _ & Hf). inversion Hf as [|? v' ? ws' Hv Hrest]; subst.
      unfold hostPortOf in Hv. rewrite Hs in Hv. discriminate.
Qed.

Lemma exposedLoop_shape (strs : list string) :
  forall p r b, exposedLoop strs p = Ret (r, b) -> (b = true <-> is_Some r).
Proof.
  induction strs as [|s strs IH]; intros p r b.
  - cbn. intros [= <- <-]. split; eauto.
  - cbn [exposedLoop]. destruct (gostrings.Split s ":" !! 1%nat); [|discriminate].
    destruct (strconv.ParseUint _); [apply IH|].
    intros [= <- <-]. split; [discriminate | intros [? ?]; discriminate].
Qed.

(** X14: [ExposedPorts] answers a list with [true] exactly when the port is
    in the mapping and every one of its addresses has a second [":"]-piece
    that reads as an unsigned integer; the list then holds these numbers,
    one per address, in order. It never answers a list with [false] or nil
    with [true]. *)
Theorem ExposedPorts_true_iff (c : Container) (port : N) :
  (forall vs,
     ExposedPorts c port = Ret (Some vs, true) <->
     exists strs, mapIndex (portMappings c) port = Some strs /\
                  Forall2 (fun s v => hostPortOf s = Some v) strs vs) /\
  (forall vs, ExposedPorts c port = Ret (Some vs, true) ->
     exists strs, ExposedPortAddresses c port = (Some strs, true) /\
                  length vs = length strs) /\
  (forall r b, ExposedPorts c port = Ret (r, b) -> (b = true <-> is_Some r)).
Proof.
  unfold ExposedPorts, ExposedPortAddresses.
  destruct (mapIndex (portMappings c) port) as [strs|].
  - split; [|split].
    + intros vs. rewrite exposedLoop_true. split.
      * intros (ws & -> & Hf). eauto.
      * intros (strs' & [= <-] & Hf). eauto.
    + intros vs Hv. apply exposedLoop_true in Hv as (ws & -> & Hf).
      exists strs. split; [reflexivity|]. cbn. symmetry. exact (Forall2_length _ _ _ Hf).
    + intros r b. apply exposedLoop_shape.
  - split; [|split].
    + intros vs. split; [discriminate | intros (? & ? & _); discriminate].
    + discriminate.
    + intros r b [= <- <-]. split; [discriminate | intros [? ?]; discriminate].
Qed.

Lemma exposedLoop_stops (pre : list string) bad post :
  Forall (fun s => is_Some (hostPortOf s)) pre ->
  hostPortOf bad = None ->
  forall p,
    exposedLoop (pre ++ bad :: post) p =
    match gostrings.Split bad ":" !! 1%nat with
    | None => Panic
    | Some _ => Ret (None, false)
    end.
Proof.
  intros Hpre Hbad. induction Hpre as [|s pre [v Hv] _ IH]; intros p.
  - cbn [app exposedLoop]. unfold hostPortOf in Hbad.
    destruct (gostrings.Split bad ":" !! 1%nat) as [part|]; [|reflexivity].
    now rewrite Hbad.
  - cbn [app exposedLoop]. unfold hostPortOf in Hv.
    destruct (gostrings.Split s ":" !! 1%nat) as [part|]; [|discriminate].
    rewrite Hv. apply IH.
Qed.

(** X15: [ExposedPorts] is all or nothing and does not check for the colon:
    at the first address whose second [":"]-piece does not read as an
    unsigned integer it answers [(nil, false)], dropping the ports already
    parsed, and at the first address without a colon it panics on
    [parts[1]]. *)
Theorem ExposedPorts_first_bad_address (c : Container) (port : N) pre bad post :
  mapIndex (portMappings c) port = Some (pre ++ bad :: post) ->
  Forall (fun s => is_Some (hostPortOf s)) pre ->
  (gostrings.hasByte ":" bad = false -> ExposedPorts c port = Panic) /\
  (forall part,
     gostrings.Split bad ":" !! 1%nat = Some part ->
     strconv.ParseUint part = None ->
     ExposedPorts c port = Ret (None, false)).
Proof.
  intros Hm Hpre. unfold ExposedPorts. rewrite Hm. split.
  - intros Hb.
    assert (gostrings.Split bad ":" !! 1%nat = None) as Hs
      by now rewrite (Split_whole ":" EmptyString bad Hb).
    rewrite (exposedLoop_stops pre bad post Hpre); [now rewrite Hs|].
    unfold hostPortOf. now rewrite Hs.
  - intros part Hs Hp.
    rewrite (exposedLoop_stops pre bad post Hpre); [now rewrite Hs|].
    unfold hostPortOf. now rewrite Hs.
Qed.

(** ** Options, composed *)

Lemma applyOptions_cons {C} (o : C -> C) (opts : list (C -> C)) (cfg : C) :
  applyOptions (o :: opts) cfg = applyOptions opts (o cfg).
Proof. reflexivity. Qed.

Lemma applyOptions_calls (calls : list optionCall) :
  forall cfg,
    let cfg' := applyOptions (map optionOf calls) cfg in
    deref (args cfg') = deref (args cfg) ++ flat_map cmdOf calls /\
    deref (env cfg') = deref (env cfg) ++ flat_map envOf calls /\
    deref (ports cfg') = deref (ports cfg) ++ flat_map portsOf calls /\
    mounts cfg' = mounts cfg.
Proof.
  induction calls as [|o calls IH]; intros cfg.
  - cbn. now rewrite !app_nil_r.
  - cbv zeta.
    change (applyOptions (map optionOf (o :: calls)) cfg)
      with (applyOptions (map optionOf calls) (optionOf o cfg)).
    destruct (IH (optionOf o cfg)) as (Ha & He & Hp & Hm).
    rewrite Ha, He, Hp, Hm. cbn [flat_map].
    destruct o; cbn; rewrite <- ?app_assoc, ?app_nil_r; auto.
Qed.

(** X16: however the option calls are interleaved, each kind accumulates in
    call order and leaves the others alone: the command override is the
    concatenation of the [WithCmd] arguments, the environment sequence
    holds one [KEY=value] entry per [WithEnvVar] call (a repeated key is
    kept twice), the port pairs hold one pair per [WithPort] or
    [WithRandomPort] call (host port 0 for the latter), and the mounts are
    untouched. *)
Theorem applyOptions_accumulates_in_call_order (calls : list optionCall) cfg :
  let cfg' := applyOptions (map optionOf calls) cfg in
  deref (args cfg') = deref (args cfg) ++ flat_map cmdOf calls /\
  deref (env cfg') = deref (env cfg) ++ flat_map envOf calls /\
  deref (ports cfg') = deref (ports cfg) ++ flat_map portsOf calls /\
  mounts cfg' = mounts cfg.
Proof. apply applyOptions_calls. Qed.

(** ** The trace only grows *)

Lemma appends_ret {A} (a : A) : appends (ret a).
Proof. intros h. exists []. cbn. now rewrite app_nil_r. Qed.

Lemma appends_run c : appends (run c).
Proof. intros h. exists [c]. reflexivity. Qed.

Lemma appends_bind {A B} (m : M A) (k : A -> M B) :
  appends m -> (forall a, appends (k a)) -> appends (bind m k).
Proof.
  intros Hm Hk h. unfold bind. destruct (Hm h) as [more Hmore].
  destruct (m h) as [[a| |] h1]; cbn [snd] in Hmore; subst h1.
  - destruct (Hk a (h ++ more)) as [more' ->]. exists (more ++ more').
    now rewrite app_assoc.
  - exists more. reflexivity.
  - exists more. reflexivity.
Qed.

Lemma appends_containerIsAlive ticks ctx cid : appends (containerIsAlive ticks ctx cid).
Proof.
  intros h. destruct (containerIsAlive_trace ticks ctx cid h) as (k & _ & -> & _). eauto.
Qed.

Lemma appends_getLogs ctx cid : appends (getLogs ctx cid).
Proof. apply appends_bind; [apply appends_run | intros; apply appends_ret]. Qed.

Lemma appends_discoverPorts ticks ctx cid prt : appends (discoverPorts ticks ctx cid prt).
Proof.
  induction ticks as [|ticks IH]; intros h.
  - exists []. cbn. now rewrite app_nil_r.
  - cbn [discoverPorts]. destruct (doneFires ctx h).
    + exists []. cbn. now rewrite app_nil_r.
    + revert h. apply appends_bind.
      * unfold getPublishedPorts. apply appends_bind; [apply appends_run|].
        intros r h. exists []. cbn. now rewrite app_nil_r.
      * intros [pm [e|]]; [apply appends_ret|].
        destruct (mapLen pm =? 0)%nat; [apply IH | apply appends_ret].
Qed.

Lemma appends_cleanup cid err : appends (cleanup cid err).
Proof.
  intros h. destruct (cleanup_run cid err h) as (more & -> & _).
  destruct err; cbn [snd]; [eauto|]. exists []. now rewrite app_nil_r.
Qed.

Lemma appends_launched ticks ctx imageName cid exposedPorts :
  appends (launched ticks ctx imageName cid exposedPorts).
Proof.
  unfold launched. apply appends_bind; [apply appends_containerIsAlive|].
  intros [e|].
  - apply appends_bind; [apply appends_getLogs|]. intros [l ?]. apply appends_ret.
  - destruct (0 <? length exposedPorts)%nat; [|apply appends_ret].
    apply appends_bind; [apply appends_discoverPorts|].
    intros [pm [e|]]; [|apply appends_ret].
    apply appends_bind; [apply appends_getLogs|]. intros [l ?]. apply appends_ret.
Qed.

Lemma newContainer_first_command ticks ctx imageName opts h :
  let cfg := applyOptions opts
               {| args := None; env := None; mounts := None; ports := None |} in
  exists more,
    snd (newContainer ticks ctx imageName opts h) =
    h ++ Command ctx dockerCmd
           (startArgs imageName (deref (args cfg)) (deref (env cfg))
              (deref (ports cfg)) (deref (mounts cfg))) :: more.
Proof.
  intros cfg. unfold newContainer. fold cfg. unfold bind at 1.
  pose proof (startContainer_runs ctx imageName (deref (args cfg)) (deref (env cfg))
                (deref (ports cfg)) (deref (mounts cfg)) h) as Hs.
  destruct (startContainer _ _ _ _ _ _ h) as [[[cid [e|]]| |] h0];
    cbn [snd] in Hs; subst h0; try (exists []; reflexivity).
  assert (appends (let* (err, result) := launched ticks ctx imageName cid (deref (ports cfg)) in
                   let* _ := cleanup cid err in ret result)) as Ha.
  { apply appends_bind; [apply appends_launched|]. intros [err result].
    apply appends_bind; [apply appends_cleanup | intros; apply appends_ret]. }
  destruct (Ha (h ++ [Command ctx dockerCmd
                        (startArgs imageName (deref (args cfg)) (deref (env cfg))
                           (deref (ports cfg)) (deref (mounts cfg)))])) as [more ->].
  exists more. now rewrite <- app_assoc.
Qed.

(** X17: whatever happens afterwards, the first command of a launch is
    [docker run -d], then one [-p] flag per port option in call order, then
    one [-e KEY=value] flag per [WithEnvVar] call in call order, then the
    image name, then the arguments of the [WithCmd] calls in call order. *)
Theorem newContainer_command_line ticks ctx imageName (calls : list optionCall) h :
  exists more,
    snd (newContainer ticks ctx imageName (map optionOf calls) h) =
    h ++ Command ctx dockerCmd
           (["run"; "-d"]
              ++ flat_map (fun p => ["-p"; portSeq p]) (flat_map portsOf calls)
              ++ flat_map (fun e => ["-e"; e]) (flat_map envOf calls)
              ++ [imageName] ++ flat_map cmdOf calls) :: more.
Proof.
  destruct (newContainer_first_command ticks ctx imageName (map optionOf calls) h)
    as [more ->].
  exists more. do 3 f_equal. rewrite startArgs_flags.
  destruct (applyOptions_calls calls
              {| args := None; env := None; mounts := None; ports := None |})
    as (-> & -> & -> & ->).
  reflexivity.
Qed.

(** ** Case of the environment keys *)

Lemma upperByte_code c :
  N_of_ascii (gostrings.upperByte c) =
  if (97 <=? N_of_ascii c) && (N_of_ascii c <=? 122) then N_of_ascii c - 32
  else N_of_ascii c.
Proof.
  unfold gostrings.upperByte.
  destruct ((97 <=? N_of_ascii c) && (N_of_ascii c <=? 122)) eqn:E; [|reflexivity].
  apply andb_true_iff in E as [E1 E2]. apply N.leb_le in E1, E2.
  now rewrite N_ascii_embedding by lia.
Qed.

Lemma N_of_ascii_inj a b : N_of_ascii a = N_of_ascii b -> a = b.
Proof.
  intros H. rewrite <- (ascii_N_embedding a), <- (ascii_N_embedding b). now rewrite H.
Qed.

(** Two bytes have the same upper case exactly when they are the same
    letter. *)
Lemma upperByte_sameLetter a b :
  gostrings.upperByte a = gostrings.upperByte b <-> sameLetter a b = true.
Proof.
  assert (gostrings.upperByte a = gostrings.upperByte b <->
          N_of_ascii (gostrings.upperByte a) = N_of_ascii (gostrings.upperByte b)) as ->.
  { split; [now intros -> | apply N_of_ascii_inj]. }
  rewrite !upperByte_code. unfold sameLetter.
  destruct (N.leb_spec 97 (N_of_ascii a)), (N.leb_spec (N_of_ascii a) 122),
           (N.leb_spec 97 (N_of_ascii b)), (N.leb_spec (N_of_ascii b) 122),
           (N.leb_spec 65 (N_of_ascii a)), (N.leb_spec (N_of_ascii a) 90),
           (N.leb_spec 65 (N_of_ascii b)), (N.leb_spec (N_of_ascii b) 90),
           (N.eqb_spec (N_of_ascii a) (N_of_ascii b)),
           (N.eqb_spec (N_of_ascii b) (N_of_ascii a + 32)),
           (N.eqb_spec (N_of_ascii a) (N_of_ascii b + 32));
    cbn [andb orb]; split; intros; try reflexivity; try discriminate; lia.
Qed.

Lemma mapBytes_equalFold (s t : string) :
  gostrings.mapBytes gostrings.upperByte s = gostrings.mapBytes gostrings.upperByte t <->
  equalFold s t = true.
Proof.
  revert t. induction s as [|a s IH]; intros [|b t]; cbn [gostrings.mapBytes equalFold].
  - split; reflexivity.
  - split; discriminate.
  - split; discriminate.
  - rewrite andb_true_iff, <- IH, <- upperByte_sameLetter. split.
    + now intros [= -> ->].
    + now intros [-> ->].
Qed.

Lemma sapp_inv_tail (a b c : string) : a +:+ c = b +:+ c -> a = b.
Proof.
  revert b. induction a as [|x a IH]; intros [|y b] H.
  - reflexivity.
  - apply (f_equal String.length) in H. rewrite sapp_nil, sapp_length in H.
    cbn [String.length] in H. lia.
  - apply (f_equal String.length) in H. rewrite sapp_nil, sapp_length in H.
    cbn [String.length] in H. lia.
  - rewrite !sapp_cons in H. injection H as -> H. now rewrite (IH _ H).
Qed.

(** X18: the key of [WithEnvVar] is case-folded. For ASCII keys, two calls
    with the same value add the same entry, and so give the same
    configuration, exactly when the keys differ at most in the case of
    their letters: [path], [Path] and [PATH] are one variable, [path] and
    [paths] are two. *)
Theorem WithEnvVar_key_is_case_folded key1 key2 value cfg :
  gostrings.isASCII key1 = true ->
  gostrings.isASCII key2 = true ->
  (WithEnvVar key1 value cfg = WithEnvVar key2 value cfg <-> equalFold key1 key2 = true).
Proof.
  intros H1 H2. rewrite <- mapBytes_equalFold.
  unfold WithEnvVar, gostrings.ToUpper. rewrite H1, H2. split.
  - intros [= H]. apply app_inv_head in H. injection H as H.
    now apply sapp_inv_tail in H.
  - now intros ->.
Qed.

(** ** The loops do end *)

Lemma replicate_shift {A} (h : list A) (x : A) (i : nat) :
  h ++ replicate (S i) x = (h ++ [x]) ++ replicate i x.
Proof. now rewrite <- app_assoc. Qed.



Lemma discoverPorts_returns ctx cid prt k (m : gmap N (list string)) :
  forall ticks h,
    (forall i, (i < k)%nat ->
       doneFires ctx (h ++ replicate i (portCommand ctx cid)) = false /\
       exists pm,
         publishedPortsOf (exec (h ++ replicate i (portCommand ctx cid))
                             (portCommand ctx cid)) = Ret (pm, None) /\
         mapLen pm = 0%nat) ->
    doneFires ctx (h ++ replicate k (portCommand ctx cid)) = false ->
    publishedPortsOf (exec (h ++ replicate k (portCommand ctx cid))
                        (portCommand ctx cid)) = Ret (Some m, None) ->
    (0 < size m)%nat ->
    (k < ticks)%nat ->
    discoverPorts ticks ctx cid prt h =
      (Ret (Some m, None), h ++ replicate (S k) (portCommand ctx cid)).
Proof.
  induction k as [|k IH]; intros ticks h Hquiet Hd Hp Hs Hk.
  - destruct ticks as [|ticks]; [lia|].
    cbn [replicate] in Hd, Hp. rewrite app_nil_r in Hd, Hp.
    rewrite (discoverPorts_tick _ _ _ _ _ Hd), Hp. cbn [mapLen].
    destruct (Nat.eqb_spec (size m) 0); [lia | reflexivity].
  - destruct ticks as [|ticks]; [lia|].
    destruct (Hquiet 0%nat ltac:(lia)) as (Hd0 & pm & Hp0 & Hz).
    cbn [replicate] in Hd0, Hp0. rewrite app_nil_r in Hd0, Hp0.
    rewrite (discoverPorts_tick _ _ _ _ _ Hd0), Hp0, Hz. cbn [Nat.eqb].
    rewrite (IH ticks (h ++ [portCommand ctx cid])); try assumption; try lia.
    + now rewrite <- !replicate_shift.
    + intros i Hi. rewrite <- replicate_shift. apply Hquiet. lia.
    + now rewrite <- replicate_shift.
    + now rewrite <- replicate_shift.
Qed.

(** X20: the discovery loop does end with a mapping: when the first [k]
    queries exit zero with an empty mapping and the next one with a non-empty
    one, the context not being done at these [select]s, the loop returns
    that mapping after exactly [k + 1] queries, whatever ticks were left. *)
Theorem discoverPorts_adopts_first_mapping ticks ctx cid prt h k (m : gmap N (list string)) :
  let c := portCommand ctx cid in
  (forall i, (i < k)%nat ->
     doneFires ctx (h ++ replicate i c) = false /\
     exists pm,
       publishedPortsOf (exec (h ++ replicate i c) c) = Ret (pm, None) /\
       mapLen pm = 0%nat) ->
  doneFires ctx (h ++ replicate k c) = false ->
  publishedPortsOf (exec (h ++ replicate k c) c) = Ret (Some m, None) ->
  (0 < size m)%nat ->
  (k < ticks)%nat ->
  discoverPorts ticks ctx cid prt h = (Ret (Some m, None), h ++ replicate (S k) c).
Proof. intros c. apply discoverPorts_returns. Qed.

Lemma waitDecide_runnable met r :
  unrunnable r = false ->
  waitDecide met (adapterResult r) = if metOn met r then waitMet else waitAgain.
Proof.
  unfold unrunnable, waitDecide, adapterResult, metOn.
  destruct (runErr r); [intros ->|intros _]; now destruct (met _ _ _).
Qed.

Lemma waitLoop_returns ctx c cmd met (inCtr : bool) k :
  let probe := probeCommand ctx c cmd inCtr in
  inCtr = true \/ cmd <> [] ->
  forall ticks h,
    (forall i, (i < k)%nat ->
       doneFires ctx (h ++ replicate i probe) = false /\
       unrunnable (exec (h ++ replicate i probe) probe) = false /\
       metOn met (exec (h ++ replicate i probe) probe) = false) ->
    doneFires ctx (h ++ replicate k probe) = false ->
    unrunnable (exec (h ++ replicate k probe) probe) = false ->
    metOn met (exec (h ++ replicate k probe) probe) = true ->
    (k < ticks)%nat ->
    waitLoop ticks ctx c cmd met inCtr h = (Ret None, h ++ replicate (S k) probe).
Proof.
  intros probe Hcmd.
  assert (forall h,
            (if inCtr then dockerExecute ctx (id c) cmd else hostExecute ctx cmd) h =
            (Ret (adapterResult (exec h probe)), h ++ [probe])) as Hrun.
  { intros h. destruct (adapter_run ctx c cmd inCtr h) as [Ha | (-> & -> & _)];
      [exact Ha | now destruct Hcmd]. }
  induction k as [|k IH]; intros ticks h Hfalse Hd Hu Hm Hk.
  - destruct ticks as [|ticks]; [lia|].
    cbn [replicate] in Hd, Hu, Hm. rewrite app_nil_r in Hd, Hu, Hm.
    rewrite (waitLoop_tick _ _ _ _ _ _ _ _ _ Hd (Hrun h)).
    now rewrite (waitDecide_runnable _ _ Hu), Hm.
  - destruct ticks as [|ticks]; [lia|].
    destruct (Hfalse 0%nat ltac:(lia)) as (Hd0 & Hu0 & Hm0).
    cbn [replicate] in Hd0, Hu0, Hm0. rewrite app_nil_r in Hd0, Hu0, Hm0.
    rewrite (waitLoop_tick _ _ _ _ _ _ _ _ _ Hd0 (Hrun h)).
    rewrite (waitDecide_runnable _ _ Hu0), Hm0.
    rewrite (IH ticks (h ++ [probe])); try lia.
    + now rewrite <- !replicate_shift.
    + intros i Hi. rewrite <- replicate_shift. apply Hfalse. lia.
    + now rewrite <- replicate_shift.
    + now rewrite <- replicate_shift.
    + now rewrite <- replicate_shift.
Qed.

(** X21: [WaitCmd] does return nil: when the probe can be run (in the
    container, or a non-empty command on the host), the predicate fails on
    the first [k] probes and holds on the next, each of them able to start
    and the context not being done at these [select]s, [WaitCmd] returns nil
    after exactly [k + 1] probes; the predicate has been asked once per
    probe. *)
Theorem WaitCmd_returns_at_first_true ticks ctx c cmd met opts h k :
  let inCtr := match inContainer (applyOptions opts {| inContainer := None |}) with
               | Some b => b
               | None => false
               end in
  let probe := probeCommand ctx c cmd inCtr in
  inCtr = true \/ cmd <> [] ->
  (forall i, (i < k)%nat ->
     doneFires ctx (h ++ replicate i probe) = false /\
     unrunnable (exec (h ++ replicate i probe) probe) = false /\
     metOn met (exec (h ++ replicate i probe) probe) = false) ->
  doneFires ctx (h ++ replicate k probe) = false ->
  unrunnable (exec (h ++ replicate k probe) probe) = false ->
  metOn met (exec (h ++ replicate k probe) probe) = true ->
  (k < ticks)%nat ->
  WaitCmd ticks ctx c cmd met opts h = (Ret None, h ++ replicate (S k) probe).
Proof.
  intros inCtr probe Hcmd. unfold WaitCmd. fold inCtr.
  now apply waitLoop_returns.
Qed.

(** ** Decimal numerals, there and back *)

Lemma of_uint_acc_value (d : Decimal.uint) :
  forall acc, N.pos (Pos.of_uint_acc d acc) = uintValue (N.pos acc) d.
Proof.
  induction d; intros acc; cbn [Pos.of_uint_acc uintValue];
    [reflexivity | rewrite IHd; f_equal; lia ..].
Qed.

Lemma of_uint_value (d : Decimal.uint) : N.of_uint d = uintValue 0 d.
Proof.
  unfold N.of_uint.
  induction d; cbn [Pos.of_uint uintValue];
    [reflexivity | exact IHd | apply of_uint_acc_value ..].
Qed.

Lemma uintValue_ge (d : Decimal.uint) : forall acc, acc <= uintValue acc d.
Proof.
  induction d; intros acc; cbn [uintValue];
    [lia | etransitivity; [|apply IHd]; lia ..].
Qed.

Lemma parseLoop_numeral (d : Decimal.uint) :
  forall acc,
    uintValue acc d <= strconv.maxUint64 ->
    strconv.parseLoop acc (NilEmpty.string_of_uint d) = Some (uintValue acc d).
Proof.
  assert (strconv.maxUint64 = 18446744073709551615) as Hmax by reflexivity.
  assert (strconv.cutoff = 1844674407370955162) as Hcut by reflexivity.
  induction d; intros acc Hle; cbn [NilEmpty.string_of_uint uintValue] in *;
    [reflexivity | ..];
    (cbn [strconv.parseLoop];
     match goal with
     | |- context [strconv.digitOf ?c] =>
         let v := eval vm_compute in (strconv.digitOf c) in
         change (strconv.digitOf c) with v
     end;
     cbv iota beta;
     match goal with
     | H : uintValue ?a d <= _ |- _ =>
         pose proof (uintValue_ge d a) as Hge
     end;
     rewrite Hmax in *; rewrite Hcut;
     destruct (N.leb_spec 1844674407370955162 acc) as [Hc|Hc]; [lia|];
     match goal with
     | |- context [18446744073709551615 <? ?n1] =>
         destruct (N.ltb_spec 18446744073709551615 n1) as [Hn|Hn]; [lia|]
     end;
     rewrite <- Hmax in Hle; rewrite (IHd _ Hle); reflexivity).
Qed.

(** Formatting an unsigned 64-bit integer and parsing it back gives the
    integer. *)
Lemma ParseUint_FormatUint n :
  n <= strconv.maxUint64 -> strconv.ParseUint (strconv.FormatUint n) = Some n.
Proof.
  intros Hn. unfold strconv.FormatUint.
  pose proof (DecimalN.Unsigned.of_to n) as Hof. rewrite of_uint_value in Hof.
  destruct (N.to_uint n) as [|d|d|d|d|d|d|d|d|d|d] eqn:E;
    [cbn in Hof; subst n; reflexivity | ..];
    (subst n;
     match goal with
     | |- strconv.ParseUint (NilZero.string_of_uint ?x) = _ =>
         change (strconv.parseLoop 0 (NilEmpty.string_of_uint x) = Some (uintValue 0 x))
     end;
     now apply parseLoop_numeral).
Qed.

(** ** Discovery, then lookup *)

Lemma addressesOf_bindings p (bs : list binding) :
  p <= strconv.maxUint64 ->
  Forall plainBinding bs ->
  addressesOf p (map bindingEntry bs) =
  map (fun b => hostAddress (fst (snd b)) (strconv.FormatUint (snd (snd b))))
      (filter (fun b => fst b = p) bs) /\
  hostPortsFor p bs = map (fun b => snd (snd b)) (filter (fun b => fst b = p) bs).
Proof.
  intros Hp. induction 1 as [|[q [host hp]] bs (Hq & _) _ [IH1 IH2]]; [split; reflexivity|].
  cbn [fst snd] in *. cbn [map addressesOf hostPortsFor bindingEntry fst snd].
  rewrite (ParseUint_FormatUint _ Hq).
  destruct (decide (q = p)) as [->|Hne].
  - rewrite decide_True by reflexivity. rewrite filter_cons_True by reflexivity.
    cbn [map fst snd]. now rewrite IH1, IH2.
  - rewrite decide_False by congruence. rewrite filter_cons_False by assumption.
    auto.
Qed.

Lemma exposedLoop_bindings (bs : list binding) :
  Forall plainBinding bs ->
  exposedLoop
    (map (fun b => hostAddress (fst (snd b)) (strconv.FormatUint (snd (snd b)))) bs) [] =
  Ret (Some (map (fun b => snd (snd b)) bs), true).
Proof.
  intros Hb.
  rewrite <- (map_map (fun b : binding => (fst (snd b), strconv.FormatUint (snd (snd b))))
                      (fun e : string * string => hostAddress (fst e) (snd e))).
  apply (exposedLoop_addresses _ (map (fun b : binding => snd (snd b)) bs)).
  induction Hb as [|[q [host hp]] bs (_ & Hhp & Hhost & _) _ IH]; [constructor|].
  cbn [map fst snd] in *. constructor; [|assumption].
  split; [assumption | now apply ParseUint_FormatUint].
Qed.

(** X22: formatting and parsing agree: on a handle whose addresses for a port
    are [<host>:<port>] with colon-free hosts and the host ports written by
    [strconv.FormatUint], [ExposedPorts] returns exactly these host ports,
    in order. *)
Theorem ExposedPorts_reads_formatted_ports (c : Container) (port : N)
    (hosts : list (string * N)) :
  mapIndex (portMappings c) port =
    Some (map (fun e => hostAddress (fst e) (strconv.FormatUint (snd e))) hosts) ->
  Forall (fun e => gostrings.hasByte ":" (fst e) = false /\
                   snd e <= strconv.maxUint64) hosts ->
  ExposedPorts c port = Ret (Some (map snd hosts), true).
Proof.
  intros Hm Hall. unfold ExposedPorts. rewrite Hm.
  rewrite <- (map_map (fun e : string * N => (fst e, strconv.FormatUint (snd e)))
                      (fun e : string * string => hostAddress (fst e) (snd e))).
  apply (exposedLoop_addresses _ (map snd hosts)). clear Hm.
  induction Hall as [|[host hp] hosts [Hh Hp] _ IH]; [constructor|].
  cbn [map fst snd] in *. constructor; [|assumption].
  split; [assumption | now apply ParseUint_FormatUint].
Qed.

(** X23: discovery, then lookup: when [docker port] exits zero and has printed
    one line [<port>/tcp -> <host>:<hostport>] per binding (numbers in
    decimal, hosts without a colon), then on the handle that carries the
    mapping [getPublishedPorts] returns, [ExposedPorts] gives for every
    internal port with a binding exactly the host ports of its bindings in
    line order, and [(nil, false)] for every other port. *)
Theorem published_ports_round_trip ctx cid h (bs : list binding) :
  let c := portCommand ctx cid in
  runErr (exec h c) = None ->
  stdOut (exec h c) = portOutput (map bindingEntry bs) ->
  Forall plainBinding bs ->
  exists m : gmap N (list string),
    getPublishedPorts ctx cid h = (Ret (Some m, None), h ++ [c]) /\
    forall p, p <= strconv.maxUint64 ->
      ExposedPorts {| id := cid; portMappings := Some m |} p =
      match hostPortsFor p bs with
      | [] => Ret (None, false)
      | hps => Ret (Some hps, true)
      end.
Proof.
  intros c Herr Hout Hb.
  assert (Forall publishedEntry (map bindingEntry bs)) as Hwf.
  { apply Forall_map. eapply Forall_impl; [exact Hb|]. now intros b (_ & _ & _ & H). }
  destruct (portLines_published None _ Hwf ∅) as (m & Hm & Hspec).
  exists m. split.
  - unfold getPublishedPorts. rewrite bind_run. fold c.
    unfold publishedPortsOf, bufio.Scan.
    rewrite Herr, Hout, (rawLines_portOutput _ Hwf), (scanTokens_published _ Hwf), Hm.
    reflexivity.
  - intros p Hp. destruct (Hspec p) as [Htot Hnone].
    rewrite lookup_total_empty in Htot. rewrite lookup_empty in Hnone.
    destruct (addressesOf_bindings p bs Hp Hb) as [Ha Hh].
    unfold ExposedPorts. cbn [portMappings mapIndex].
    destruct (m !! p) as [l|] eqn:Hl.
    + assert (l = m !!! p) as -> by (now rewrite lookup_total_alt, Hl).
      rewrite Htot. cbn [app]. rewrite Ha, Hh.
      assert (Forall plainBinding (filter (fun b => fst b = p) bs)) as Hf.
      { apply Forall_forall. intros b Hin. apply list_elem_of_filter in Hin as [_ Hin].
        rewrite Forall_forall in Hb. now apply Hb. }
      change (@inhabitant (list string) _) with (@nil string). cbn [app].
      rewrite (exposedLoop_bindings _ Hf).
      destruct (filter (fun b => fst b = p) bs) as [|b fs] eqn:Hfs; [|reflexivity].
      cbn [map] in Ha. destruct Hnone as [_ Hn].
      discriminate (Hn (conj eq_refl Ha)).
    + destruct Hnone as [Hnone _]. destruct (Hnone eq_refl) as [_ Hempty].
      rewrite Ha in Hempty. rewrite Hh.
      destruct (filter (fun b => fst b = p) bs); [reflexivity | discriminate].
Qed.

End Engine.

(** * The embedding on concrete inputs *)

Example Split_arrow :
  gostrings.Split "80/tcp -> 0.0.0.0:49155" " -> " = ["80/tcp"; "0.0.0.0:49155"].
Proof. reflexivity. Qed.

Example Split_no_separator : gostrings.Split "abc" ":" = ["abc"].
Proof. reflexivity. Qed.

Example Split_ipv6 : gostrings.Split "[::]:49155" ":" = ["["; ""; "]"; "49155"].
Proof. reflexivity. Qed.

Example ReplaceAll_tcp : gostrings.ReplaceAll "27017/tcp" "/tcp" "" = "27017".
Proof. reflexivity. Qed.

Example ParseUint_max :
  strconv.ParseUint "18446744073709551615" = Some 18446744073709551615.
Proof. reflexivity. Qed.

Example ParseUint_overflow : strconv.ParseUint "18446744073709551616" = None.
Proof. reflexivity. Qed.

Example ParseUint_udp : strconv.ParseUint "53/udp" = None.
Proof. reflexivity. Qed.

Example FormatUint_zero : strconv.FormatUint 0 = "0".
Proof. reflexivity. Qed.

Example Scan_lines :
  bufio.Scan ("a" +:+ str CR +:+ nl +:+ nl +:+ "b") = (["a"; ""; "b"], None).
Proof. reflexivity. Qed.

Example ToUpper_intent : gostrings.ToUpper asciiOnly "intent" = "INTENT".
Proof. reflexivity. Qed.

(** The random-port form of the same flag. *)
Example startArgs_random_port :
  startArgs "mongo:7-jammy" [] ["INTENT=prod"] [(27017, 0)] [("./testfile", "/etc/testfile")] =
  ["run"; "-d"; "-p"; "27017"; "-e"; "INTENT=prod";
   "--mount"; "type=bind,source=./testfile,target=/etc/testfile"; "mongo:7-jammy"].
Proof. reflexivity. Qed.

(** [Stop] on a container that was removed behind its back: the stop step
    fails and is the only command run. *)
Example Stop_on_removed_container :
  Stop goneRuntime ctx0 ipv4Handle [] =
  (Ret (Some (errorString
          "unable to stop container: Error response from daemon: No such container: 0123456789ab")),
   [stopCommand ctx0 cid0]).
Proof. reflexivity. Qed.

(** A probe that exits 0 on the first tick: one command, no error. *)
Example WaitCmd_first_tick :
  WaitCmd (scripted [succeeds "ok"]) neverDone deadlineExceeded 3 ctx0 ipv4Handle
    ["mongosh"; "--quiet"] exitZero [WithExecuteInsideContainer true] [] =
  (Ret None, [Command ctx0 "docker" ["exec"; cid0; "mongosh"; "--quiet"]]).
Proof. reflexivity. Qed.

(** A caller whose context is done gets the context's error, no probe runs. *)
Example WaitCmd_cancelled :
  WaitCmd (scripted []) alwaysDone deadlineExceeded 3 ctx0 ipv4Handle
    ["mongosh"] exitZero [] [] =
  (Ret (Some (errorString "context deadline exceeded")), []).
Proof. reflexivity. Qed.

(** An empty probe command on the host panics on [command[0]]. *)
Example WaitCmd_empty_command :
  WaitCmd (scripted []) neverDone deadlineExceeded 3 ctx0 ipv4Handle [] exitZero [] [] =
  (Panic, []).
Proof. reflexivity. Qed.

(** The launch scenario of the specification: three port queries, then
    [ExposedPorts(80)] is [([49155], true)] and [ExposedPorts(9999)] is
    [(nil, false)]. *)
Example launch_discovers_ports :
  match newContainer slowPortsRuntime neverDone deadlineExceeded plainQuote 5 ctx0
          "X" [WithRandomPort 80] [] with
  | (Ret (Some c, None), trace) =>
      ExposedPorts c 80 = Ret (Some [49155], true) /\
      ExposedPorts c 9999 = Ret (None, false) /\
      ExposedPortAddresses c 80 = (Some ["0.0.0.0:49155"], true) /\
      trace = [Command ctx0 "docker" ["run"; "-d"; "-p"; "80"; "X"];
               inspectCommand ctx0 cid0;
               portCommand ctx0 cid0; portCommand ctx0 cid0; portCommand ctx0 cid0]
  | _ => False
  end.
Proof. vm_compute. repeat split. Qed.

(** A launch whose liveness check finds the container exited: no handle,
    the wrapped error with the logs, and the clean-up under its own
    context. *)
Example launch_of_exiting_container :
  newContainer exitedRuntime neverDone deadlineExceeded plainQuote 5 ctx0
    "mongo:7-jammy" [] [] =
  (Ret (None,
        Some (launchErrorLogs "mongo:7-jammy" cid0
                (errorString ("container in invalid state: " +:+ stateExited +:+ nl +:+
                              "stdOut:" +:+ stateExited +:+ nl +:+ "stdErr:"))
                "no such file")),
   [Command ctx0 "docker" ["run"; "-d"; "mongo:7-jammy"];
    inspectCommand ctx0 cid0;
    logsCommand ctx0 cid0;
    stopCommand fiveSeconds cid0;
    volumesCommand fiveSeconds cid0;
    removeCommand fiveSeconds cid0]).
Proof. reflexivity. Qed.

(** The error text the package's own test looks for. *)
Example launch_error_text :
  gostrings.Contains
    (Error (launchErrorLogs "mongo:7-jammy" cid0
              (errorString ("container in invalid state: " +:+ stateExited +:+ nl +:+
                            "stdOut:" +:+ stateExited +:+ nl +:+ "stdErr:"))
              "no such file"))
    "container in invalid state: 'exited'" = true.
Proof. reflexivity. Qed.

(** Through the public options: [WithPort(27017, 8080)] reaches docker as
    [-p 27017:8080]. *)
Example launch_with_port_option :
  hd_error (snd (newContainer exitedRuntime neverDone deadlineExceeded plainQuote 5 ctx0
                   "mongo:7-jammy" [WithPort 27017 8080] [])) =
  Some (Command ctx0 "docker" ["run"; "-d"; "-p"; "27017:8080"; "mongo:7-jammy"]).
Proof. reflexivity. Qed.

(** A whole launch on a dual-stack host: the launch succeeds, port 27017 was
    requested and is published, its two addresses are kept, and
    [ExposedPorts(27017)] is [(nil, false)]. *)
Example launch_on_dual_stack_host :
  match newContainer dualStackRuntime neverDone deadlineExceeded plainQuote 5 ctx0
          "mongo:7-jammy" [WithRandomPort 27017] [] with
  | (Ret (Some c, None), _) =>
      ExposedPortAddresses c 27017 = (Some ["0.0.0.0:32768"; "[::]:32768"], true) /\
      ExposedPorts c 27017 = Ret (None, false)
  | _ => False
  end.
Proof. vm_compute. repeat split. Qed.

(** Two bindings of port 27017 around one of port 80: the addresses of a
    port come out in the order of their lines. *)
Example published_ports_in_line_order :
  match publishedPortsOf (succeeds (portOutput publishedEntries)) with
  | Ret (Some pm, None) =>
      pm !! 27017 = Some ["0.0.0.0:32768"; "0.0.0.0:27017"] /\
      pm !! 80 = Some ["0.0.0.0:8080"] /\
      pm !! 9999 = None
  | _ => False
  end.
Proof. vm_compute. repeat split. Qed.

(** A line without the separator whose text is a number: [parts[1]] is out
    of range. *)
Example published_ports_missing_separator :
  publishedPortsOf (succeeds ("80" +:+ nl)) = Panic.
Proof. reflexivity. Qed.

(** * Inputs on which the code leaves the specification *)

(** Counterexample to C6 without a bound on the output: [docker run] exits
    zero having printed fewer than 12 bytes, and [startContainer] returns no
    identifier at all, the slice expression panics. *)
Lemma startContainer_short_output_panics :
  runErr (shortIdRuntime [] (Command ctx0 dockerCmd (startArgs "img" [] [] [] []))) = None /\
  startContainer shortIdRuntime plainQuote ctx0 "img" [] [] [] [] [] =
    (Panic, [Command ctx0 dockerCmd ["run"; "-d"; "img"]]).
Proof. split; reflexivity. Qed.

(** C8, on the handle of a dual-stack host: port 27017 is in the mapping
    and both its addresses have the form [<ip>:<port>], yet [ExposedPorts]
    returns [(nil, false)] instead of the two host ports, because the piece
    after the first colon of the IPv6 address is empty. *)
Lemma ExposedPorts_ipv6_address_rejected :
  mapIndex (portMappings dualStackHandle) 27017 = Some ["0.0.0.0:32768"; "[::]:32768"] /\
  ExposedPorts dualStackHandle 27017 = Ret (None, false).
Proof. split; reflexivity. Qed.

(** * The theorems at concrete inputs *)

Lemma containerIsAlive_status_mapping_witness :
  runErr (bootingRuntime [] (inspectCommand ctx0 cid0)) = None /\
  (stdOut (bootingRuntime [] (inspectCommand ctx0 cid0)) ∉
     [stateDead; stateExited; statePaused; stateRestarting; stateRunning]) /\
  containerIsAlive bootingRuntime 2 ctx0 cid0 [] =
    containerIsAlive bootingRuntime 1 ctx0 cid0 [inspectCommand ctx0 cid0].
Proof.
  assert (stdOut (bootingRuntime [] (inspectCommand ctx0 cid0)) ∉
            [stateDead; stateExited; statePaused; stateRestarting; stateRunning]) as Hn.
  { rewrite !not_elem_of_cons. repeat split; try discriminate. apply not_elem_of_nil. }
  split; [reflexivity|]. split; [exact Hn|].
  destruct (containerIsAlive_status_mapping bootingRuntime 1 ctx0 cid0 [] eq_refl)
    as (_ & _ & H & _).
  exact (proj2 (H Hn)).
Defined.

Lemma startContainer_id_is_first_12_bytes_witness :
  runErr (exitedRuntime [] (Command ctx0 dockerCmd (startArgs "mongo" [] [] [] []))) = None /\
  (12 <= String.length
           (stdOut (exitedRuntime [] (Command ctx0 dockerCmd (startArgs "mongo" [] [] [] [])))))%nat /\
  exists cid rest,
    startContainer exitedRuntime plainQuote ctx0 "mongo" [] [] [] [] [] =
      (Ret (cid, None), [] ++ [Command ctx0 dockerCmd (startArgs "mongo" [] [] [] [])]) /\
    stdOut (exitedRuntime [] (Command ctx0 dockerCmd (startArgs "mongo" [] [] [] []))) =
      cid +:+ rest /\
    String.length cid = 12%nat.
Proof.
  assert (Hlen : (12 <= String.length
            (stdOut (exitedRuntime [] (Command ctx0 dockerCmd
                                         (startArgs "mongo" [] [] [] [])))))%nat)
    by (apply Nat.leb_le; reflexivity).
  split; [reflexivity|]. split; [exact Hlen|].
  exact (startContainer_id_is_first_12_bytes exitedRuntime plainQuote ctx0
           "mongo" [] [] [] [] [] eq_refl Hlen).
Defined.

Lemma WithEnvVar_appends_uppercased_key_witness :
  gostrings.isASCII "intent" = true /\
  env (WithEnvVar asciiOnly "intent" "prod" noOptions) = Some ["INTENT=prod"] /\
  forallb (fun c => negb (isLower c))
    (list_ascii_of_string (gostrings.ToUpper asciiOnly "intent")) = true.
Proof.
  destruct (WithEnvVar_appends_uppercased_key asciiOnly "intent" "prod" noOptions)
    as (He & _ & _ & _ & Hup).
  split; [reflexivity|]. split.
  - rewrite He. reflexivity.
  - exact (proj2 (Hup eq_refl)).
Defined.

Lemma WaitCmd_tick_decision_witness :
  neverDone ctx0 [] = false /\
  hostExecute noProbeRuntime ctx0 ["mongosh"] [] =
    (Ret (EmptyString, EmptyString, (-1)%Z,
          Some (errorString "exec: executable file not found in $PATH")),
     [Command ctx0 "mongosh" []]) /\
  WaitCmd noProbeRuntime neverDone deadlineExceeded 3 ctx0 ipv4Handle ["mongosh"]
    exitZero [] [] =
    (Ret (Some (wrapError
                  ("wait command errored: " +:+
                   "exec: executable file not found in $PATH" +:+ nl +:+
                   str TAB +:+ "stdErr:" +:+ nl +:+ str TAB +:+ "stdOut:")
                  (errorString "exec: executable file not found in $PATH"))),
     [Command ctx0 "mongosh" []]).
Proof.
  split; [reflexivity|]. split; [reflexivity|].
  destruct (WaitCmd_tick_decision noProbeRuntime neverDone deadlineExceeded 2 ctx0
              ipv4Handle ["mongosh"] exitZero [] [] EmptyString EmptyString (-1)%Z
              (Some (errorString "exec: executable file not found in $PATH"))
              [Command ctx0 "mongosh" []] eq_refl eq_refl) as (_ & _ & H & _).
  exact (H _ eq_refl eq_refl).
Defined.

Lemma getPublishedPorts_published_lines_witness :
  strconv.ParseUint "27017" = Some 27017 /\
  gostrings.Contains "0.0.0.0:32768" " -> " = false /\
  portLines None [publishedLine "27017" "0.0.0.0:32768"] ∅ =
    portLines None [] (<[27017 := (∅ : gmap N (list string)) !!! 27017 ++ ["0.0.0.0:32768"]]> ∅) /\
  runErr (publishingRuntime [] (portCommand ctx0 cid0)) = None /\
  stdOut (publishingRuntime [] (portCommand ctx0 cid0)) = portOutput publishedEntries /\
  Forall publishedEntry publishedEntries /\
  exists pm : gmap N (list string),
    getPublishedPorts publishingRuntime ctx0 cid0 [] =
      (Ret (Some pm, None), [] ++ [portCommand ctx0 cid0]) /\
    forall p, pm !!! p = addressesOf p publishedEntries /\
              (pm !! p = None <-> addressesOf p publishedEntries = []).
Proof.
  assert (Forall publishedEntry publishedEntries) as Hwf.
  { repeat constructor; try (eexists; reflexivity). }
  destruct (getPublishedPorts_published_lines publishingRuntime ctx0 cid0 []
              publishedEntries) as [Hline Hall].
  split; [reflexivity|]. split; [reflexivity|].
  split; [exact (Hline None "27017" "0.0.0.0:32768" 27017 [] ∅ eq_refl eq_refl)|].
  split; [reflexivity|]. split; [reflexivity|]. split; [exact Hwf|].
  exact (Hall eq_refl eq_refl Hwf).
Defined.

Lemma getPublishedPorts_parse_failure_is_silent_witness :
  strconv.ParseUint (lhsOf "53/udp -> 0.0.0.0:32769") = None /\
  runErr (udpRuntime [] (portCommand ctx0 cid0)) = None /\
  fst (bufio.Scan (stdOut (udpRuntime [] (portCommand ctx0 cid0)))) =
    ["27017/tcp -> 0.0.0.0:32768"] ++ "53/udp -> 0.0.0.0:32769" :: [] /\
  Forall (fun t => gostrings.Contains t " -> " = true) ["27017/tcp -> 0.0.0.0:32768"] /\
  portLines None ["53/udp -> 0.0.0.0:32769"] ∅ = scanReturn None None /\
  getPublishedPorts udpRuntime ctx0 cid0 [] = (Ret (None, None), [portCommand ctx0 cid0]) /\
  discoverPorts udpRuntime neverDone deadlineExceeded 2 ctx0 cid0 (Some ∅) [] =
    discoverPorts udpRuntime neverDone deadlineExceeded 1 ctx0 cid0 (Some ∅)
      [portCommand ctx0 cid0].
Proof.
  assert (Forall (fun t => gostrings.Contains t " -> " = true)
            ["27017/tcp -> 0.0.0.0:32768"]) as Hpre by (repeat constructor).
  destruct (getPublishedPorts_parse_failure_is_silent udpRuntime neverDone
              deadlineExceeded ctx0 cid0 [] ["27017/tcp -> 0.0.0.0:32768"]
              "53/udp -> 0.0.0.0:32769" [] eq_refl) as [Hline Hall].
  destruct (Hall eq_refl eq_refl Hpre) as [H1 H2].
  split; [reflexivity|]. split; [reflexivity|]. split; [reflexivity|].
  split; [exact Hpre|]. split; [exact (Hline None [] ∅)|]. split.
  - exact H1.
  - exact (H2 1%nat (Some ∅) eq_refl).
Defined.

Lemma ExposedPorts_lookup_witness :
  mapIndex (portMappings ipv4Handle) 9999 = None /\
  ExposedPorts ipv4Handle 9999 = Ret (None, false) /\
  mapIndex (portMappings ipv4Handle) 27017 =
    Some (map (fun e => hostAddress (fst e) (snd e))
            [("0.0.0.0", "32768"); ("0.0.0.0", "27017")]) /\
  ExposedPorts ipv4Handle 27017 = Ret (Some [32768; 27017], true).
Proof.
  assert (Forall2 (fun (e : string * string) v =>
                     gostrings.hasByte ":" (fst e) = false /\
                     strconv.ParseUint (snd e) = Some v)
            [("0.0.0.0", "32768"); ("0.0.0.0", "27017")] [32768; 27017]) as Hall.
  { repeat constructor. }
  split; [reflexivity|]. split.
  - exact (proj1 (ExposedPorts_lookup exitedRuntime neverDone deadlineExceeded
                    plainQuote 9999) ipv4Handle eq_refl).
  - split; [reflexivity|].
    exact (proj2 (proj2 (ExposedPorts_lookup exitedRuntime neverDone deadlineExceeded
                           plainQuote 27017)) ipv4Handle
                    [("0.0.0.0", "32768"); ("0.0.0.0", "27017")] [32768; 27017]
                    eq_refl Hall).
Defined.

Lemma newContainer_failure_cleans_up_witness :
  startContainer cancelledRuntime plainQuote ctx0 "postgres" [] [] [(80, 0)] [] [] =
    (Ret (cid0, None), [Command ctx0 "docker" ["run"; "-d"; "-p"; "80"; "postgres"]]) /\
  containerIsAlive cancelledRuntime 5 ctx0 cid0
    [Command ctx0 "docker" ["run"; "-d"; "-p"; "80"; "postgres"]] =
    (Ret None,
     [Command ctx0 "docker" ["run"; "-d"; "-p"; "80"; "postgres"];
      inspectCommand ctx0 cid0]) /\
  discoverPorts cancelledRuntime alwaysDone deadlineExceeded 5 ctx0 cid0 (Some ∅)
    [Command ctx0 "docker" ["run"; "-d"; "-p"; "80"; "postgres"];
     inspectCommand ctx0 cid0] =
    (Ret (Some ∅, Some (errorString "context deadline exceeded")),
     [Command ctx0 "docker" ["run"; "-d"; "-p"; "80"; "postgres"];
      inspectCommand ctx0 cid0]) /\
  exists e,
    newContainer cancelledRuntime alwaysDone deadlineExceeded plainQuote 5 ctx0
      "postgres" [WithRandomPort 80] [] =
      (Ret (None, Some e),
       [Command ctx0 "docker" ["run"; "-d"; "-p"; "80"; "postgres"];
        Command ctx0 "docker" ["inspect"; "-f"; "'{{.State.Status}}'"; cid0];
        Command ctx0 "docker" ["logs"; cid0];
        Command fiveSeconds "docker" ["container"; "stop"; cid0];
        Command fiveSeconds "docker" ["inspect"; "-f"; volumesTemplate; cid0];
        Command fiveSeconds "docker" ["container"; "remove"; cid0];
        Command fiveSeconds "docker" ["volume"; "rm"; "pgdata"]]) /\
    Error e = "[postgres](0123456789ab) context deadline exceeded" +:+ nl +:+ "logs:ready" /\
    Unwrap e = Some (errorString "context deadline exceeded").
Proof.
  split; [reflexivity|]. split; [reflexivity|]. split; [reflexivity|].
  pose proof (newContainer_failure_cleans_up cancelledRuntime alwaysDone deadlineExceeded
                plainQuote 5 ctx0 "postgres" [WithRandomPort 80] [] cid0
                [Command ctx0 "docker" ["run"; "-d"; "-p"; "80"; "postgres"]]
                (errorString "context deadline exceeded")
                [Command ctx0 "docker" ["run"; "-d"; "-p"; "80"; "postgres"];
                 inspectCommand ctx0 cid0]) as H.
  cbv zeta in H.
  destruct H as (e & Hn & _ & He & Hu & _).
  - reflexivity.
  - right. exists [Command ctx0 "docker" ["run"; "-d"; "-p"; "80"; "postgres"];
                   inspectCommand ctx0 cid0], (Some ∅).
    split; [reflexivity|]. split; [discriminate | reflexivity].
  - exists e. split; [exact Hn|]. split; [exact He | exact Hu].
Defined.

(** * The further theorems at concrete inputs *)

Lemma getPublishedPorts_mapping_is_exact_witness :
  getPublishedPorts oneLineRuntime ctx0 cid0 [] =
    (Ret (Some {[ 80 := ["0.0.0.0:49155"] ]}, None), [portCommand ctx0 cid0]) /\
  noEmptyList {[ 80 := ["0.0.0.0:49155"] ]} /\
  ({[ 80 := ["0.0.0.0:49155"] ]} : gmap N (list string)) !!! 80 =
    piecesFor 80 ["80/tcp -> 0.0.0.0:49155"].
Proof.
  assert (getPublishedPorts oneLineRuntime ctx0 cid0 [] =
            (Ret (Some {[ 80 := ["0.0.0.0:49155"] ]}, None), [portCommand ctx0 cid0]))
    as H by reflexivity.
  destruct (getPublishedPorts_mapping_is_exact oneLineRuntime ctx0 cid0 [] _ _ _ H)
    as (_ & _ & _ & Hp & Hne & _).
  split; [exact H|]. split; [exact Hne | exact (Hp 80)].
Defined.

Lemma discoverPorts_ends_witness :
  discoverPorts quietThenLineRuntime neverDone deadlineExceeded 5 ctx0 cid0 (Some ∅) [] =
    (Ret (Some {[ 80 := ["0.0.0.0:49155"] ]}, None),
     [portCommand ctx0 cid0; portCommand ctx0 cid0; portCommand ctx0 cid0]) /\
  exists k,
    (k <= 5)%nat /\
    [portCommand ctx0 cid0; portCommand ctx0 cid0; portCommand ctx0 cid0] =
      [] ++ replicate k (portCommand ctx0 cid0).
Proof.
  assert (discoverPorts quietThenLineRuntime neverDone deadlineExceeded 5 ctx0 cid0
            (Some ∅) [] =
          (Ret (Some {[ 80 := ["0.0.0.0:49155"] ]}, None),
           [portCommand ctx0 cid0; portCommand ctx0 cid0; portCommand ctx0 cid0]))
    as H by reflexivity.
  destruct (discoverPorts_ends quietThenLineRuntime neverDone deadlineExceeded
              5 ctx0 cid0 (Some ∅) [] _ _ _ H) as (k & Hk & Ht & _).
  split; [exact H|]. exists k. split; assumption.
Defined.

Lemma newContainer_success_path_witness :
  newContainer slowPortsRuntime neverDone deadlineExceeded plainQuote 5 ctx0 "X"
    [WithRandomPort 80] [] =
    (Ret (Some port80Handle, None),
     [Command ctx0 "docker" ["run"; "-d"; "-p"; "80"; "X"]; inspectCommand ctx0 cid0;
      portCommand ctx0 cid0; portCommand ctx0 cid0; portCommand ctx0 cid0]) /\
  exists k j (m : gmap N (list string)),
    (1 <= k)%nat /\
    [Command ctx0 "docker" ["run"; "-d"; "-p"; "80"; "X"]; inspectCommand ctx0 cid0;
     portCommand ctx0 cid0; portCommand ctx0 cid0; portCommand ctx0 cid0] =
      [] ++ [Command ctx0 "docker" ["run"; "-d"; "-p"; "80"; "X"]]
         ++ replicate k (inspectCommand ctx0 cid0) ++ replicate j (portCommand ctx0 cid0) /\
    portMappings port80Handle = Some m.
Proof.
  assert (newContainer slowPortsRuntime neverDone deadlineExceeded plainQuote 5 ctx0 "X"
            [WithRandomPort 80] [] =
          (Ret (Some port80Handle, None),
           [Command ctx0 "docker" ["run"; "-d"; "-p"; "80"; "X"]; inspectCommand ctx0 cid0;
            portCommand ctx0 cid0; portCommand ctx0 cid0; portCommand ctx0 cid0]))
    as H by reflexivity.
  destruct (newContainer_success_path slowPortsRuntime neverDone deadlineExceeded
              plainQuote 5 ctx0 "X" [WithRandomPort 80] [] _ _ _ H)
    as (_ & _ & _ & k & j & m & Hk & Ht & Hm & _).
  split; [exact H|]. exists k, j, m. repeat split; assumption.
Defined.

Lemma launched_handle_addresses_nonempty_witness :
  newContainer slowPortsRuntime neverDone deadlineExceeded plainQuote 5 ctx0 "X"
    [WithRandomPort 80] [] =
    (Ret (Some port80Handle, None),
     [Command ctx0 "docker" ["run"; "-d"; "-p"; "80"; "X"]; inspectCommand ctx0 cid0;
      portCommand ctx0 cid0; portCommand ctx0 cid0; portCommand ctx0 cid0]) /\
  ExposedPortAddresses port80Handle 80 = (Some ["0.0.0.0:49155"], true) /\
  ["0.0.0.0:49155"] <> ([] : list string).
Proof.
  assert (newContainer slowPortsRuntime neverDone deadlineExceeded plainQuote 5 ctx0 "X"
            [WithRandomPort 80] [] =
          (Ret (Some port80Handle, None),
           [Command ctx0 "docker" ["run"; "-d"; "-p"; "80"; "X"]; inspectCommand ctx0 cid0;
            portCommand ctx0 cid0; portCommand ctx0 cid0; portCommand ctx0 cid0]))
    as H by reflexivity.
  split; [exact H|]. split; [reflexivity|].
  exact (launched_handle_addresses_nonempty slowPortsRuntime neverDone deadlineExceeded
           plainQuote 5 ctx0 "X" [WithRandomPort 80] [] _ _ _ 80 _ H eq_refl).
Defined.

Lemma newContainer_start_failure_witness :
  runErr (pullDeniedRuntime [] (Command ctx0 dockerCmd (startArgs "private/img" [] [] [] [])))
    <> None /\
  exists e,
    newContainer pullDeniedRuntime neverDone deadlineExceeded plainQuote 5 ctx0
      "private/img" [] [] =
      (Ret (None, Some e), [Command ctx0 "docker" ["run"; "-d"; "private/img"]]).
Proof.
  assert (runErr (pullDeniedRuntime []
                    (Command ctx0 dockerCmd (startArgs "private/img" [] [] [] []))) <> None)
    as H by discriminate.
  destruct (newContainer_start_failure pullDeniedRuntime neverDone deadlineExceeded
              plainQuote 5 ctx0 "private/img" [] [] H) as (e & He & _).
  split; [exact H|]. exists e. exact He.
Defined.

Lemma WaitCmd_ends_witness :
  WaitCmd slowProbeRuntime neverDone deadlineExceeded 5 ctx0 port80Handle
    ["pg_isready"] exitZero [WithExecuteInsideContainer true] [] =
    (Ret None, replicate 3 (Command ctx0 "docker" ["exec"; cid0; "pg_isready"])) /\
  exists k,
    (k <= 5)%nat /\
    replicate 3 (Command ctx0 "docker" ["exec"; cid0; "pg_isready"]) =
      [] ++ replicate k (probeCommand ctx0 port80Handle ["pg_isready"] true).
Proof.
  assert (WaitCmd slowProbeRuntime neverDone deadlineExceeded 5 ctx0 port80Handle
            ["pg_isready"] exitZero [WithExecuteInsideContainer true] [] =
          (Ret None, replicate 3 (Command ctx0 "docker" ["exec"; cid0; "pg_isready"])))
    as H by reflexivity.
  destruct (WaitCmd_ends slowProbeRuntime neverDone deadlineExceeded 5 ctx0 port80Handle
              ["pg_isready"] exitZero [WithExecuteInsideContainer true] [] _ _ H)
    as (k & Hk & Ht & _).
  split; [exact H|]. exists k. split; assumption.
Defined.

Lemma WaitCmd_false_predicate_never_succeeds_witness :
  (forall out err code, neverMet out err code = false) /\
  fst (WaitCmd slowProbeRuntime neverDone deadlineExceeded 5 ctx0 port80Handle
         ["pg_isready"] neverMet [] []) <> Ret None.
Proof.
  assert (forall out err code, neverMet out err code = false) as H by reflexivity.
  split; [exact H|].
  exact (WaitCmd_false_predicate_never_succeeds slowProbeRuntime neverDone
           deadlineExceeded 5 ctx0 port80Handle ["pg_isready"] neverMet [] [] H).
Defined.

Lemma WaitCmd_empty_host_command_panics_witness :
  neverDone ctx0 [] = false /\
  WaitCmd slowProbeRuntime neverDone deadlineExceeded 3 ctx0 port80Handle [] exitZero [] [] =
    (Panic, []).
Proof.
  split; [reflexivity|].
  exact (proj1 (WaitCmd_empty_host_command_panics slowProbeRuntime neverDone
                  deadlineExceeded 2 ctx0 port80Handle exitZero [] eq_refl)).
Defined.

Lemma getVolumes_reads_names_witness :
  runErr (volumeListRuntime [] (volumesCommand ctx0 cid0)) = None /\
  stdOut (volumeListRuntime [] (volumesCommand ctx0 cid0)) = volumesOutput ["pgdata"; "cache"] /\
  Forall volumeName ["pgdata"; "cache"] /\
  getVolumes volumeListRuntime ctx0 cid0 [] =
    (Ret (["pgdata"; "cache"], None), [] ++ [volumesCommand ctx0 cid0]).
Proof.
  assert (Forall volumeName ["pgdata"; "cache"]) as Hn
    by (repeat constructor; discriminate).
  split; [reflexivity|]. split; [reflexivity|]. split; [exact Hn|].
  exact (getVolumes_reads_names volumeListRuntime ctx0 cid0 [] ["pgdata"; "cache"]
           eq_refl eq_refl Hn).
Defined.

Lemma Stop_removes_listed_volumes_witness :
  Forall volumeName ["pgdata"; "cache"] /\
  Stop volumesRuntime ctx0 port80Handle [] =
    (Ret None,
     [] ++ [stopCommand ctx0 cid0; volumesCommand ctx0 cid0; removeCommand ctx0 cid0;
            Command ctx0 "docker" ["volume"; "rm"; "pgdata"; "cache"]]).
Proof.
  assert (Forall volumeName ["pgdata"; "cache"]) as Hn
    by (repeat constructor; discriminate).
  split; [exact Hn|].
  exact (Stop_removes_listed_volumes volumesRuntime ctx0 port80Handle []
           ["pgdata"; "cache"] eq_refl eq_refl eq_refl Hn ltac:(discriminate) eq_refl).
Defined.

Lemma ExposedPorts_first_bad_address_witness :
  mapIndex (portMappings dualStackHandle) 27017 =
    Some (["0.0.0.0:32768"] ++ "[::]:32768" :: []) /\
  Forall (fun s => is_Some (hostPortOf s)) ["0.0.0.0:32768"] /\
  gostrings.Split "[::]:32768" ":" !! 1%nat = Some EmptyString /\
  strconv.ParseUint EmptyString = None /\
  ExposedPorts dualStackHandle 27017 = Ret (None, false).
Proof.
  assert (Forall (fun s => is_Some (hostPortOf s)) ["0.0.0.0:32768"]) as Hpre
    by (repeat constructor; eexists; reflexivity).
  split; [reflexivity|]. split; [exact Hpre|]. split; [reflexivity|].
  split; [reflexivity|].
  exact (proj2 (ExposedPorts_first_bad_address dualStackHandle 27017
                  ["0.0.0.0:32768"] "[::]:32768" [] eq_refl Hpre)
           EmptyString eq_refl eq_refl).
Defined.

Lemma WithEnvVar_key_is_case_folded_witness :
  gostrings.isASCII "path" = true /\
  gostrings.isASCII "Path" = true /\
  equalFold "path" "Path" = true /\
  WithEnvVar asciiOnly "path" "/bin" noOptions = WithEnvVar asciiOnly "Path" "/bin" noOptions /\
  env (WithEnvVar asciiOnly "path" "/bin" noOptions) = Some ["PATH=/bin"].
Proof.
  split; [reflexivity|]. split; [reflexivity|]. split; [reflexivity|].
  split; [|reflexivity].
  exact (proj2 (WithEnvVar_key_is_case_folded asciiOnly "path" "Path" "/bin" noOptions
                  eq_refl eq_refl) eq_refl).
Defined.


Lemma discoverPorts_adopts_first_mapping_witness :
  (forall i, (i < 2)%nat ->
     neverDone ctx0 ([] ++ replicate i (portCommand ctx0 cid0)) = false /\
     exists pm,
       publishedPortsOf (quietThenLineRuntime ([] ++ replicate i (portCommand ctx0 cid0))
                           (portCommand ctx0 cid0)) = Ret (pm, None) /\
       mapLen pm = 0%nat) /\
  discoverPorts quietThenLineRuntime neverDone deadlineExceeded 5 ctx0 cid0 (Some ∅) [] =
    (Ret (Some {[ 80 := ["0.0.0.0:49155"] ]}, None),
     [] ++ replicate 3 (portCommand ctx0 cid0)).
Proof.
  assert (forall i, (i < 2)%nat ->
     neverDone ctx0 ([] ++ replicate i (portCommand ctx0 cid0)) = false /\
     exists pm,
       publishedPortsOf (quietThenLineRuntime ([] ++ replicate i (portCommand ctx0 cid0))
                           (portCommand ctx0 cid0)) = Ret (pm, None) /\
       mapLen pm = 0%nat) as Hq.
  { intros [|[|i]] Hi; [| |lia];
      (split; [reflexivity|]; exists (Some ∅); split; reflexivity). }
  split; [exact Hq|].
  exact (discoverPorts_adopts_first_mapping quietThenLineRuntime neverDone
           deadlineExceeded 5 ctx0 cid0 (Some ∅) [] 2 {[ 80 := ["0.0.0.0:49155"] ]}
           Hq eq_refl eq_refl ltac:(rewrite map_size_singleton; lia) ltac:(lia)).
Defined.

Lemma WaitCmd_returns_at_first_true_witness :
  (forall i, (i < 2)%nat ->
     neverDone ctx0 ([] ++ replicate i (probeCommand ctx0 port80Handle ["pg_isready"] false))
       = false /\
     unrunnable (slowProbeRuntime
                   ([] ++ replicate i (probeCommand ctx0 port80Handle ["pg_isready"] false))
                   (probeCommand ctx0 port80Handle ["pg_isready"] false)) = false /\
     metOn exitZero
       (slowProbeRuntime
          ([] ++ replicate i (probeCommand ctx0 port80Handle ["pg_isready"] false))
          (probeCommand ctx0 port80Handle ["pg_isready"] false)) = false) /\
  WaitCmd slowProbeRuntime neverDone deadlineExceeded 5 ctx0 port80Handle ["pg_isready"]
    exitZero [] [] =
    (Ret None, [] ++ replicate 3 (Command ctx0 "pg_isready" [])).
Proof.
  assert (forall i, (i < 2)%nat ->
     neverDone ctx0 ([] ++ replicate i (probeCommand ctx0 port80Handle ["pg_isready"] false))
       = false /\
     unrunnable (slowProbeRuntime
                   ([] ++ replicate i (probeCommand ctx0 port80Handle ["pg_isready"] false))
                   (probeCommand ctx0 port80Handle ["pg_isready"] false)) = false /\
     metOn exitZero
       (slowProbeRuntime
          ([] ++ replicate i (probeCommand ctx0 port80Handle ["pg_isready"] false))
          (probeCommand ctx0 port80Handle ["pg_isready"] false)) = false) as Hf.
  { intros [|[|i]] Hi; [| |lia]; repeat split. }
  split; [exact Hf|].
  pose proof (WaitCmd_returns_at_first_true slowProbeRuntime neverDone deadlineExceeded 5
                ctx0 port80Handle ["pg_isready"] exitZero [] [] 2) as H.
  cbv zeta in H. apply H.
  - right. discriminate.
  - exact Hf.
  - reflexivity.
  - reflexivity.
  - reflexivity.
  - lia.
Defined.

Lemma ExposedPorts_reads_formatted_ports_witness :
  mapIndex (portMappings ipv4Handle) 27017 =
    Some (map (fun e => hostAddress (fst e) (strconv.FormatUint (snd e)))
            [("0.0.0.0", 32768); ("0.0.0.0", 27017)]) /\
  ExposedPorts ipv4Handle 27017 = Ret (Some [32768; 27017], true).
Proof.
  split; [reflexivity|].
  refine (ExposedPorts_reads_formatted_ports ipv4Handle 27017
            [("0.0.0.0", 32768); ("0.0.0.0", 27017)] eq_refl _).
  repeat constructor; apply N.leb_le; reflexivity.
Defined.

Lemma published_ports_round_trip_witness :
  runErr (publishingRuntime [] (portCommand ctx0 cid0)) = None /\
  stdOut (publishingRuntime [] (portCommand ctx0 cid0)) =
    portOutput (map bindingEntry sampleBindings) /\
  Forall plainBinding sampleBindings /\
  exists m : gmap N (list string),
    getPublishedPorts publishingRuntime ctx0 cid0 [] =
      (Ret (Some m, None), [] ++ [portCommand ctx0 cid0]) /\
    ExposedPorts {| id := cid0; portMappings := Some m |} 27017 =
      Ret (Some [32768; 27017], true) /\
    ExposedPorts {| id := cid0; portMappings := Some m |} 9999 = Ret (None, false).
Proof.
  assert (Forall plainBinding sampleBindings) as Hb.
  { repeat constructor; try (apply N.leb_le; reflexivity); try (eexists; reflexivity). }
  split; [reflexivity|]. split; [reflexivity|]. split; [exact Hb|].
  destruct (published_ports_round_trip publishingRuntime ctx0 cid0 [] sampleBindings
              eq_refl eq_refl Hb) as (m & Hm & Hex).
  exists m. split; [exact Hm|]. split.
  - exact (Hex 27017 ltac:(apply N.leb_le; reflexivity)).
  - exact (Hex 9999 ltac:(apply N.leb_le; reflexivity)).
Defined.
